(** * paypal_digest: a shallow embedding of the digest pipeline

    The development follows the package module by module:
    [models], [summarizer], [content], [state], [config], [fetchers],
    [digest] and [__main__].  Python values are modelled as follows.

    - [str] is [string]; a character stands for a code point below 256,
      with Python's notion of whitespace and of lower-casing on that range.
    - [Optional[T]] is [option T]; truthiness of an optional string is
      [truthy_opt] (neither [None] nor the empty string).
    - Exceptions are the type [exn]; a call that may raise returns a
      [result], and [try_except] is the [try] statement.
    - A [datetime] is naive or aware and has a position on the time line;
      as in Python, a naive and an aware value do not compare.
    - The disk is a finite map from paths to files, a file being unreadable
      or holding text; text that is a JSON document is kept as the
      document.  Directories are not modelled.
    - [Article] objects are values; [content] also has its functions on a
      heap of objects addressed by reference, with the urls requested.
    - The libraries the package calls (sumy, dateutil, hashlib, requests,
      feedparser, BeautifulSoup, json, pathlib) are not re-implemented: the
      pure ones are variables of a section, taken as total functions, and
      what the network and the disk answer is an explicit input of the
      functions that ask.  Logging is kept where a statement is about it,
      in the loader of the state file. *)

From Stdlib Require Import ZArith NArith Bool Ascii String Lia.
From stdpp Require Import base option list gmap sets strings sorting.

#[local] Set Warnings "-clear-no-such-hyp".

Open Scope string_scope.
Open Scope list_scope.

(** ** Python strings *)

Module Str.

(** [str.isspace] on a single character, for code points below 256. *)
Definition is_space (c : ascii) : bool :=
    let n := N_of_ascii c in
    ((9 <=? n) && (n <=? 13) || (28 <=? n) && (n <=? 32)
     || (n =? 133) || (n =? 160))%N.

(** [bool(s)] for a string. *)
Definition truthy (s : string) : bool :=
    match s with EmptyString => false | String _ _ => true end.

(** [s.lstrip()], [s.rstrip()] and [s.strip()]. *)
Fixpoint lstrip (s : string) : string :=
    match s with
    | EmptyString => EmptyString
    | String c s' => if is_space c then lstrip s' else s
    end.

Fixpoint rstrip (s : string) : string :=
    match s with
    | EmptyString => EmptyString
    | String c s' =>
        match rstrip s' with
        | EmptyString => if is_space c then EmptyString else String c EmptyString
        | r => String c r
        end
    end.

Definition strip (s : string) : string := rstrip (lstrip s).

(** [s.split()]: the maximal runs of characters that are not whitespace.
    [cur] is the run being read. *)
Fixpoint split_from (cur : string) (s : string) : list string :=
    match s with
    | EmptyString => if truthy cur then [cur] else []
    | String c s' =>
        if is_space c
        then (if truthy cur then cur :: split_from EmptyString s'
              else split_from EmptyString s')
        else split_from (cur +:+ String c EmptyString) s'
    end.

Definition split (s : string) : list string := split_from EmptyString s.

(** [sep.join(parts)]. *)
Fixpoint join (sep : string) (parts : list string) : string :=
    match parts with
    | [] => EmptyString
    | [p] => p
    | p :: rest => p +:+ sep +:+ join sep rest
    end.

(** [s[:n]]. *)
Fixpoint prefix_of_length (n : nat) (s : string) : string :=
    match n, s with
    | O, _ => EmptyString
    | S _, EmptyString => EmptyString
    | S n', String c s' => String c (prefix_of_length n' s')
    end.

(** [s.lower()] on code points below 256: the ASCII capitals and the
    Latin-1 capitals (0xC0..0xDE without the multiplication sign). *)
Definition lower_char (c : ascii) : ascii :=
    let n := N_of_ascii c in
    if ((65 <=? n) && (n <=? 90)
        || (192 <=? n) && (n <=? 222) && negb (n =? 215))%N
    then ascii_of_N (n + 32) else c.

Fixpoint lower (s : string) : string :=
    match s with
    | EmptyString => EmptyString
    | String c s' => String (lower_char c) (lower s')
    end.

(** [needle in s]: substring test. *)
Fixpoint contains (needle s : string) : bool :=
    String.prefix needle s
    || match s with
       | EmptyString => false
       | String _ s' => contains needle s'
       end.

(** Some character of [s] is not whitespace. *)
Fixpoint has_visible (s : string) : bool :=
    match s with
    | EmptyString => false
    | String c s' => negb (is_space c) || has_visible s'
    end.

End Str.

(** [bool(x)] for an [Optional[str]]. *)
Definition truthy_opt (x : option string) : bool :=
  match x with Some s => Str.truthy s | None => false end.

(** ** Exceptions *)

(** The subclasses of [requests.RequestException] the package can meet. *)
Inductive request_failure : Type :=
| ConnectionError
| ReadTimeout
| HTTPError        (* raised by [raise_for_status] *)
| InvalidJSON.     (* raised by [Response.json] *)

Inductive exn : Type :=
| TypeError
| AttributeError
| ValueError
| RecursionError
| JSONDecodeError            (* json.JSONDecodeError *)
| OSError                    (* PermissionError, IsADirectoryError, ... *)
| UnicodeDecodeError
| ParserRejectedMarkup       (* bs4: the HTML parser gave up on the markup *)
| RequestException (k : request_failure).

(** [isinstance(e, requests.RequestException)]. *)
Definition is_RequestException (e : exn) : bool :=
  match e with RequestException _ => true | _ => false end.

(** [isinstance(e, json.JSONDecodeError)]. *)
Definition is_JSONDecodeError (e : exn) : bool :=
  match e with JSONDecodeError => true | _ => false end.

Inductive result (A : Type) : Type :=
| Ok (a : A)
| Raise (e : exn).
Arguments Ok {A} a.
Arguments Raise {A} e.

Definition rbind {A B} (r : result A) (k : A -> result B) : result B :=
  match r with Ok a => k a | Raise e => Raise e end.

Notation "'let!' x ':=' r 'in' k" := (rbind r (fun x => k))
  (at level 10, x pattern, r at level 100, k at level 200).

(** [try: r  except cls: handler]. *)
Definition try_except {A} (r : result A) (cls : exn -> bool)
    (handler : exn -> result A) : result A :=
  match r with
  | Ok a => Ok a
  | Raise e => if cls e then handler e else Raise e
  end.

Definition returns {A} (r : result A) : bool :=
  match r with Ok _ => true | Raise _ => false end.

(** ** What [requests.get] answers *)

(** A request either raises one of the [requests.RequestException]s or is
    answered with a status and a body. Scope: a url that the transport
    layer itself rejects before any request is made (urllib3's
    [LocationParseError], which is not a [RequestException]) is not among
    the answers; statements about a failing request name the answer
    ([Failed k], or a [Response] with an error status) they are about. *)

Inductive http (B : Type) : Type :=
| Failed (k : request_failure)         (* [requests.get] raises *)
| Response (status : Z) (body : B).
Arguments Failed {B} k.
Arguments Response {B} status body.

(** [requests.get(...)] followed by [response.raise_for_status()]. *)
Definition get_ok {B} (answer : http B) : result B :=
  match answer with
  | Failed k => Raise (RequestException k)
  | Response status body =>
      if ((400 <=? status) && (status <? 600))%Z
      then Raise (RequestException HTTPError) else Ok body
  end.

(** ** models.py and the [datetime] values it carries *)

(** A [datetime]: naive (wall clock) or aware (with a time zone), and its
    position on the time line in microseconds, counted from
    0001-01-01T00:00:00 for a naive value and from the same instant in UTC
    for an aware one. *)
Record datetime : Type := { tz_aware : bool; ticks : N }.

(** [datetime.min]: naive. *)
Definition datetime_min : datetime := {| tz_aware := false; ticks := 0 |}.

(** [a < b]: two naive or two aware values compare by position; a naive
    and an aware value do not compare. Scope: an aware value has a
    [tzinfo] whose [utcoffset] returns; a parsed date whose offset is out
    of range (24 hours or more), on which the comparison raises
    [ValueError], is not modelled. *)
Definition datetime_lt (a b : datetime) : result bool :=
  if Bool.eqb (tz_aware a) (tz_aware b)
  then Ok (ticks a <? ticks b)%N
  else Raise TypeError.

Module models.

Record Article : Type := {
    title : string;
    url : string;
    source : option string;      (* [None] when the origin sends null *)
    published_at : option datetime;
    summary : option string;
    content : option string;
    author : option string;
    id : string
  }.

Definition primary_text (self : Article) : option string :=
    if truthy_opt (content self) then content self else summary self.

(** [article.content = text]. *)
Definition set_content (self : Article) (text : string) : Article :=
    {| title := title self; url := url self; source := source self;
       published_at := published_at self; summary := summary self;
       content := Some text; author := author self; id := id self |}.

End models.

(** ** summarizer.py *)

Module summarizer.
Section with_sumy.

(** The sentences [LsaSummarizer] selects from the parsed text, as
    strings, for a sentence count. *)
Variable lsa : string -> nat -> list string.

Definition summarize_text (text : string) (sentence_count : nat) : string :=
    let sentences := lsa text sentence_count in
    let summary := Str.strip (Str.join " " sentences) in
    if negb (Str.truthy summary)
    then Str.join " " (take 60 (Str.split text))
    else summary.

Definition batch_summarize (texts : list string) (sentence_count : nat)
      : list string :=
    map (fun text => summarize_text text sentence_count) texts.

End with_sumy.
End summarizer.

(** ** content.py *)

Module content.

Import models.

Definition newline : string := String (ascii_of_N 10) EmptyString.

Definition max_chars : nat := 2000.

(** The text built from the page: [texts] are the stripped texts of the
    [p] elements in document order. [None] when no paragraph has text. *)
Definition page_text (texts : list string) : option string :=
    let paragraphs := filter (fun t => Is_true (Str.truthy t)) texts in
    match paragraphs with
    | [] => None
    | _ =>
        let text := Str.join (newline +:+ newline) paragraphs in
        Some (if (max_chars <? String.length text)%nat
              then Str.prefix_of_length max_chars text else text)
    end.

Section with_web.

    (** What a GET on a page's url answers: the [p] texts of the body. *)
Variable web : string -> http (list string).

    (** The article object after the call (the function returns the object
        it was given). *)
Definition enrich_article_content (article : Article) : Article :=
      if truthy_opt (content article) then article
      else
        match get_ok (web (url article)) with
        | Raise _ => article
        | Ok texts =>
            match page_text texts with
            | None => article
            | Some text => set_content article text
            end
        end.

Definition best_text (article : Article) : option string * Article :=
      let enriched := enrich_article_content article in
      (primary_text enriched, enriched).

    (** The same two functions on objects: a heap of [Article]s addressed
        by reference, and the urls requested so far. *)
Record memory : Type := {
      heap : gmap nat Article;
      requested : list string
    }.

Definition enrich_article_content_obj (ref : nat) (m : memory)
        : option (nat * memory) :=
      article ← heap m !! ref;
      if truthy_opt (content article) then Some (ref, m)
      else
        let m1 := {| heap := heap m;
                     requested := requested m ++ [url article] |} in
        match get_ok (web (url article)) with
        | Raise _ => Some (ref, m1)
        | Ok texts =>
            match page_text texts with
            | None => Some (ref, m1)
            | Some text =>
                Some (ref, {| heap := <[ref := set_content article text]> (heap m1);
                              requested := requested m1 |})
            end
        end.

Definition best_text_obj (ref : nat) (m : memory)
        : option (option string * memory) :=
      '(enriched, m') ← enrich_article_content_obj ref m;
      article ← heap m' !! enriched;
      Some (primary_text article, m').

End with_web.
End content.

(** ** state.py, and the files it reads and writes *)

(** JSON documents.  Values inside an object or an array are kept to the
    scalars: the history maps identities to titles. *)
Inductive jvalue : Type :=
| JNull
| JBool (b : bool)
| JNum (z : Z)
| JStr (s : string).

Inductive json : Type :=
| JObject (d : gmap string jvalue)     (* a [dict] *)
| JArray (l : list jvalue)             (* a [list] *)
| JScalar (v : jvalue).

(** The errors of [json.loads] that are no [JSONDecodeError]: the text is
    nested too deeply, or holds an integer with too many digits. *)
Inductive loads_failure : Type :=
| TooDeep              (* [RecursionError] *)
| TooManyDigits.       (* [ValueError] *)

(** What a readable file holds, by what [json.loads] does with it: text it
    parses, kept as the document; text it rejects with [JSONDecodeError]
    (a rendered report starts with [#] and is of this kind); text on which
    it raises another error. *)
Inductive text : Type :=
| Json (j : json)
| Plain (s : string)
| Unloadable (k : loads_failure).

(** Why a file that is there cannot be read. *)
Inductive read_failure : Type :=
| CannotOpen           (* [OSError]: no permission, a directory, ... *)
| CannotDecode.        (* [UnicodeDecodeError]: the bytes are no UTF-8 *)

Inductive file : Type :=
| Unreadable (k : read_failure)
| Readable (t : text).

Definition read_failure_exn (k : read_failure) : exn :=
  match k with
  | CannotOpen => OSError
  | CannotDecode => UnicodeDecodeError
  end.

Definition loads_failure_exn (k : loads_failure) : exn :=
  match k with
  | TooDeep => RecursionError
  | TooManyDigits => ValueError
  end.

(** A path is the list of its components. *)
Abbreviation path := (list string).
Abbreviation filesystem := (gmap (list string) file).

(** [path.exists()], [path.read_text()], [path.write_text(t)]. *)
Definition exists_ (fs : filesystem) (p : path) : bool :=
  bool_decide (is_Some (fs !! p)).

Definition read_text (fs : filesystem) (p : path) : result text :=
  match fs !! p with
  | Some (Readable t) => Ok t
  | Some (Unreadable k) => Raise (read_failure_exn k)
  | None => Raise OSError
  end.

(** [path.parent.mkdir(parents=True, exist_ok=True)] and
    [path.write_text(...)]. Scope: the disk accepts the write (the parent
    can be created, the path is not a directory, there is room); the
    strings of the model have code points below 256 and always encode. *)
Definition write_text (fs : filesystem) (p : path) (t : text) : filesystem :=
  <[p := Readable t]> fs.

(** [json.loads] and [json.dumps]. *)
Definition json_loads (t : text) : result json :=
  match t with
  | Json j => Ok j
  | Plain _ => Raise JSONDecodeError
  | Unloadable k => Raise (loads_failure_exn k)
  end.

Definition json_dumps (j : json) : text := Json j.

Inductive log_record : Type :=
| WARNING (msg : string).

Module state.

Record StateStore : Type := {
  path_ : path;
  _data : json
}.

Definition _load (fs : filesystem) (self : StateStore)
    : result (StateStore * list log_record) :=
  if negb (exists_ fs (path_ self)) then Ok (self, [])
  else
    try_except
      (let! t := read_text fs (path_ self) in
       let! j := json_loads t in
       Ok ({| path_ := path_ self; _data := j |}, []))
      is_JSONDecodeError
      (fun exc =>
         Ok ({| path_ := path_ self; _data := JObject ∅ |},
             [WARNING "Could not parse state file"])).

(** [StateStore(path)]. *)
Definition __init__ (fs : filesystem) (p : path)
    : result (StateStore * list log_record) :=
  _load fs {| path_ := p; _data := JObject ∅ |}.

Definition save (fs : filesystem) (self : StateStore) : filesystem :=
  write_text fs (path_ self) (json_dumps (_data self)).

(** [set(self._data.keys())]: only a [dict] has [keys]. *)
Definition seen_ids (self : StateStore) : result (gset string) :=
  match _data self with
  | JObject d => Ok (dom d)
  | _ => Raise AttributeError
  end.

(** [self._data[article_id] = title]: a [list] needs an integer index, a
    scalar has no item assignment. *)
Definition mark_seen (self : StateStore) (article_id title : string)
    : result StateStore :=
  match _data self with
  | JObject d =>
      Ok {| path_ := path_ self; _data := JObject (<[article_id := JStr title]> d) |}
  | _ => Raise TypeError
  end.

End state.

(** ** config.py *)

Module config.

Record Config : Type := {
  newsapi_key : option string;
  data_dir : path;
  digest_dir : path;
  state_file : path;
  query : string;
  language : string;
  max_articles : Z;
  digest_date : datetime
}.

Section with_strftime.

(** [d.strftime(format)]. *)
Variable strftime : datetime -> string -> string.

Definition digest_path (self : Config) : path :=
  let filename := strftime (digest_date self) "paypal-digest-%Y-%m-%d.md" in
  digest_dir self ++ [filename].

End with_strftime.

(** The process environment: the two variables read, and the clock. *)
Record environ : Type := {
  NEWSAPI_KEY : option string;
  PAYPAL_DIGEST_DATA_DIR : option path;
  utcnow : datetime
}.

Definition DEFAULT_DATA_DIR (env : environ) : path :=
  default ["data"] (PAYPAL_DIGEST_DATA_DIR env).
Definition DEFAULT_DIGEST_DIR (env : environ) : path :=
  DEFAULT_DATA_DIR env ++ ["digests"].
Definition DEFAULT_STATE_FILE (env : environ) : path :=
  DEFAULT_DATA_DIR env ++ ["state.json"].

(** Directories are not modelled: the two [mkdir] calls leave no trace. *)
Definition load_config (env : environ) : Config :=
  {| newsapi_key := NEWSAPI_KEY env;
     data_dir := DEFAULT_DATA_DIR env;
     digest_dir := DEFAULT_DIGEST_DIR env;
     state_file := DEFAULT_STATE_FILE env;
     query := "PayPal OR PYPL";
     language := "en";
     max_articles := 30;
     digest_date := utcnow env |}.

(** [dataclasses.replace(config, digest_dir=d)]. *)
Definition replace_digest_dir (self : Config) (d : path) : Config :=
  {| newsapi_key := newsapi_key self;
     data_dir := data_dir self;
     digest_dir := d;
     state_file := state_file self;
     query := query self;
     language := language self;
     max_articles := max_articles self;
     digest_date := digest_date self |}.

End config.

(** ** fetchers.py *)

(** The decoded body of the NewsAPI answer.  A field of an item read with
    [item.get(key)] is a string or is missing ([None] stands for an absent
    key and for [null], which [dict.get] does not tell apart).  The
    "source" is read with defaults, which apply to an absent key only. *)
Inductive api_name : Type :=
| NameMissing                            (* no "name" key *)
| NameNull                               (* "name": null *)
| Name (s : string).

Inductive api_source : Type :=
| SourceMissing                          (* no "source" key *)
| SourceNull                             (* "source": null *)
| SourceOther                            (* a string, a number, a list *)
| SourceObject (name : api_name).

Record api_item : Type := {
  item_title : option string;
  item_url : option string;
  item_content : option string;
  item_description : option string;
  item_publishedAt : option string;
  item_source : api_source;
  item_author : option string
}.

Inductive api_articles : Type :=
| ArticlesMissing                        (* no "articles" key *)
| ArticlesNull                           (* "articles": null *)
| ArticlesList (items : list api_item).

Inductive api_payload : Type :=
| PayloadObject (articles : api_articles)
| PayloadOther.                          (* a JSON value that is no object *)

(** A piece of HTML, by what the parser of BeautifulSoup does with it. *)
Inductive markup : Type :=
| Accepted (html : string)
| Rejected (html : string).              (* the parser gives up on it *)

(** An entry of the parsed feed. *)
Record feed_entry : Type := {
  entry_title : option string;
  entry_link : option string;
  entry_summary : option markup;
  entry_published : option string;       (* [None]: no "published" key *)
  entry_source : option (option string)  (* the "source" and its "title" *)
}.

(** An [article.post] element of the listing page. *)
Record card : Type := {
  card_header : option (string * option string);  (* stripped text, href *)
  card_excerpt : option string;
  card_time : option (option string)     (* the [time] and its "datetime" *)
}.

(** What the network answers during one run. *)
Record network : Type := {
  newsapi_answer : config.Config -> http (option api_payload);
                                         (* [None]: the body is no JSON *)
  google_answer : http (list feed_entry);
  pymnts_answer : http (option (list card));
                                         (* [None]: the parser rejects the page *)
  page_answer : string -> http (list string)
}.

Module fetchers.

Import models config.

Record NewsFetcher : Type := {
  name : string;
  fetch : Config -> result (list Article)
}.

Section with_libraries.

(** [hashlib.sha256(s.encode("utf-8")).hexdigest()]. *)
Variable sha256_hex : string -> string.
(** [dateutil.parser.parse]; [None] when it raises one of the three errors
    that [_parse_datetime] catches. *)
Variable dateutil_parse : string -> option datetime.
(** [BeautifulSoup(s, "html.parser").get_text()]. *)
Variable html_text : string -> string.

Definition _canonical_id (parts : list string) : string :=
  sha256_hex (Str.join "::" parts).

Definition _parse_datetime (value : option string) : option datetime :=
  match value with
  | Some v => if negb (Str.truthy v) then None else dateutil_parse v
  | None => None
  end.

(** One round of the loop of [NewsAPIFetcher.fetch]. *)
Definition newsapi_item (articles : list Article) (item : api_item)
    : result (list Article) :=
  if negb (truthy_opt (item_title item)) || negb (truthy_opt (item_url item))
  then Ok articles
  else
    let title_ := default "" (item_title item) in
    let url_ := default "" (item_url item) in
    let published := _parse_datetime (item_publishedAt item) in
    let! source_ :=
      match item_source item with
      | SourceMissing => Ok (Some "NewsAPI")
      | SourceNull | SourceOther => Raise AttributeError
      | SourceObject NameMissing => Ok (Some "NewsAPI")
      | SourceObject NameNull => Ok None
      | SourceObject (Name s) => Ok (Some s)
      end in
    Ok (articles ++
        [{| title := title_; url := url_; source := source_;
            published_at := published;
            summary := item_description item;
            content := item_content item;
            author := item_author item;
            id := _canonical_id ["newsapi"; url_] |}]).

Fixpoint for_each {A B} (body : B -> A -> result B) (acc : B) (l : list A)
    : result B :=
  match l with
  | [] => Ok acc
  | x :: rest => let! acc' := body acc x in for_each body acc' rest
  end.

Definition NewsAPIFetcher_fetch (net : network) (config : Config)
    : result (list Article) :=
  if negb (truthy_opt (newsapi_key config)) then Ok []
  else
    match get_ok (newsapi_answer net config) with
    | Raise exc => if is_RequestException exc then Ok [] else Raise exc
    | Ok body =>
        let! payload :=
          match body with
          | Some payload => Ok payload
          | None => Raise (RequestException InvalidJSON)
          end in
        let! items :=
          match payload with
          | PayloadOther => Raise AttributeError
          | PayloadObject ArticlesMissing => Ok []
          | PayloadObject ArticlesNull => Raise TypeError
          | PayloadObject (ArticlesList items) => Ok items
          end in
        for_each newsapi_item [] items
    end.

Definition google_entry (articles : list Article) (entry : feed_entry)
    : result (list Article) :=
  if negb (truthy_opt (entry_title entry)) || negb (truthy_opt (entry_link entry))
  then Ok articles
  else
    let title_ := default "" (entry_title entry) in
    let link := default "" (entry_link entry) in
    let! summary_ :=
      match default (Accepted "") (entry_summary entry) with
      | Accepted html => Ok (html_text html)
      | Rejected _ => Raise ParserRejectedMarkup
      end in
    let published :=
      match entry_published entry with
      | Some v => _parse_datetime (Some v)
      | None => None
      end in
    Ok (articles ++
        [{| title := title_; url := link;
            source := match entry_source entry with
                      | Some src => Some (default "Google News" src)
                      | None => Some "Google News"
                      end;
            published_at := published;
            summary := Some summary_;
            content := None;
            author := None;
            id := _canonical_id ["google_news"; link] |}]).

Definition GoogleNewsFetcher_fetch (net : network) (config : Config)
    : result (list Article) :=
  match get_ok (google_answer net) with
  | Raise exc => if is_RequestException exc then Ok [] else Raise exc
  | Ok entries => for_each google_entry [] entries
  end.

Definition pymnts_card (articles : list Article) (c : card) : list Article :=
  match card_header c with
  | None => articles
  | Some (title_, href) =>
      if negb (Str.truthy title_) || negb (truthy_opt href) then articles
      else
        let link := default "" href in
        let published :=
          match card_time c with
          | Some (Some v) => _parse_datetime (Some v)
          | _ => None
          end in
        articles ++
        [{| title := title_; url := link; source := Some "PYMNTS";
            published_at := published;
            summary := card_excerpt c;
            content := None;
            author := None;
            id := _canonical_id ["pymnts"; link] |}]
  end.

Definition PYMNTSFetcher_fetch (net : network) (config : Config)
    : result (list Article) :=
  match get_ok (pymnts_answer net) with
  | Raise exc => if is_RequestException exc then Ok [] else Raise exc
  | Ok None => Raise ParserRejectedMarkup
  | Ok (Some cards) => Ok (foldl pymnts_card [] cards)
  end.

Definition NewsAPIFetcher (net : network) : NewsFetcher :=
  {| name := "newsapi"; fetch := NewsAPIFetcher_fetch net |}.
Definition GoogleNewsFetcher (net : network) : NewsFetcher :=
  {| name := "google_news"; fetch := GoogleNewsFetcher_fetch net |}.
Definition PYMNTSFetcher (net : network) : NewsFetcher :=
  {| name := "pymnts"; fetch := PYMNTSFetcher_fetch net |}.

End with_libraries.

Definition keywords : list string := ["paypal"; "pypl"].

Definition _is_relevant (article : Article) : bool :=
  let text := Str.lower (title article +:+ " " +:+ default "" (summary article)) in
  existsb (fun keyword => Str.contains keyword text) keywords.

(** The loops of [collect_articles]; the state is the pair of [aggregated]
    and [seen_ids]. *)
Definition collect_article (st : list Article * gset string) (article : Article)
    : list Article * gset string :=
  let '(aggregated, seen_ids) := st in
  if bool_decide (id article ∈ seen_ids) then st
  else if negb (_is_relevant article) then st
  else (aggregated ++ [article], seen_ids ∪ {[id article]}).

Definition collect_fetcher (config : Config) (st : list Article * gset string)
    (fetcher : NewsFetcher) : list Article * gset string :=
  match fetch fetcher config with
  | Raise exc => st
  | Ok items => foldl collect_article st items
  end.

(** [collect_articles(config, fetchers)] where [fetchers] is never falsy. *)
Definition collect_from (config : Config) (fetchers : list NewsFetcher)
    : list Article :=
  fst (foldl (collect_fetcher config) ([], ∅) fetchers).

Section with_libraries.

Variable sha256_hex : string -> string.
Variable dateutil_parse : string -> option datetime.
Variable html_text : string -> string.
Variable net : network.

Definition default_fetchers : list NewsFetcher :=
  [NewsAPIFetcher sha256_hex dateutil_parse net;
   GoogleNewsFetcher sha256_hex dateutil_parse html_text net;
   PYMNTSFetcher sha256_hex dateutil_parse net].

(** [fetchers or [...]]: [None] and the empty list give the three fetchers. *)
Definition collect_articles (config : Config)
    (fetchers : option (list NewsFetcher)) : list Article :=
  collect_from config
    match fetchers with
    | Some (f :: fs) => f :: fs
    | _ => default_fetchers
    end.

End with_libraries.

End fetchers.

(** ** digest.py *)

Module digest.

Import models config state.

Record DigestItem : Type := {
  title : string;
  source : option string;
  url : string;
  published_at : option datetime;
  summary : string
}.

Record Digest : Type := {
  created_at : datetime;
  items : list DigestItem
}.

Record DigestResult : Type := {
  digest : Digest;
  new_article_ids : list string
}.

(** [datetime] values are always truthy: the key is [datetime.min] exactly
    for an article without a date. *)
Definition sort_key (art : Article) : datetime :=
  default datetime_min (models.published_at art).

(** [list.sort(key=sort_key, reverse=True)], as an insertion sort: an
    element goes behind those already placed whose key is not smaller,
    which keeps elements of equal keys in their original order, as the
    reversed sort of Python does.  The sort raises what a comparison of two
    keys raises; each insertion compares the new key with a placed one, so
    that the sort raises exactly when the list holds keys of both kinds
    (lemma [sort_reverse_uniform]), which is when any comparison sort has
    to compare a naive key with an aware one. *)
Fixpoint insert_sorted (art : Article) (sorted : list Article)
    : result (list Article) :=
  match sorted with
  | [] => Ok [art]
  | other :: rest =>
      let! smaller := datetime_lt (sort_key other) (sort_key art) in
      if smaller : bool then Ok (art :: other :: rest)
      else let! rest' := insert_sorted art rest in Ok (other :: rest')
  end.

Definition sort_reverse (l : list Article) : result (list Article) :=
  fetchers.for_each (fun sorted art => insert_sorted art sorted) [] l.

(** The comprehension [article for article in articles if article.id not in
    state.seen_ids]; the property is read once per article. *)
Definition fresh (st : StateStore) (articles : list Article)
    : result (list Article) :=
  fetchers.for_each
    (fun acc article =>
       let! seen := seen_ids st in
       Ok (if bool_decide (models.id article ∈ seen) then acc
           else acc ++ [article]))
    [] articles.

Section with_libraries.

Variable lsa : string -> nat -> list string.
Variable sha256_hex : string -> string.
Variable dateutil_parse : string -> option datetime.
Variable html_text : string -> string.
Variable strftime : datetime -> string -> string.

Definition to_markdown (self : Digest) : string :=
  let lines :=
    ["# PayPal Daily Digest — " +:+ strftime (created_at self) "%Y-%m-%d"; ""]
    ++ flat_map
         (fun item =>
            let published :=
              match published_at item with
              | Some d => strftime d "%Y-%m-%d %H:%M"
              | None => "Unknown"
              end in
            ["## " +:+ title item;
             "*Source:* " +:+ default "None" (source item)
               +:+ " — *Published:* " +:+ published;
             "";
             Str.strip (summary item);
             "";
             "[Read more](" +:+ url item +:+ ")";
             ""])
         (items self) in
  Str.strip (Str.join content.newline lines) +:+ content.newline.

(** One round of the main loop of [build_digest]; the state is the pair of
    [digest_items] and [processed_ids]. *)
Definition digest_article (net : network)
    (st : list DigestItem * list string) (article : Article)
    : list DigestItem * list string :=
  let '(digest_items, processed_ids) := st in
  let '(text, _) := content.best_text (page_answer net) article in
  if negb (truthy_opt text) then st
  else
    let summary_ := summarizer.summarize_text lsa (default "" text) 3 in
    (digest_items ++
       [{| title := models.title article;
           source := models.source article;
           url := models.url article;
           published_at := models.published_at article;
           summary := summary_ |}],
     processed_ids ++ [models.id article]).

(** [next((a for a in fresh_articles if a.id == article_id), None)]. *)
Definition matching (fresh_articles : list Article) (article_id : string)
    : option Article :=
  List.find (fun a => String.eqb (models.id a) article_id) fresh_articles.

Definition build_digest (net : network) (fs : filesystem) (config : Config)
    : result (DigestResult * filesystem) :=
  let! (st, _) := state.__init__ fs (state_file config) in
  let articles :=
    fetchers.collect_articles sha256_hex dateutil_parse html_text net
      config None in
  let! fresh_articles := fresh st articles in
  let! fresh_articles := sort_reverse fresh_articles in
  let '(digest_items, processed_ids) :=
    foldl (digest_article net) ([], []) fresh_articles in
  (* the objects of the list, as [best_text] left them *)
  let fresh_articles :=
    map (content.enrich_article_content (page_answer net)) fresh_articles in
  let digest_ :=
    {| created_at := digest_date config; items := digest_items |} in
  let! st :=
    fetchers.for_each
      (fun st article_id =>
         mark_seen st article_id
           match matching fresh_articles article_id with
           | Some a => models.title a
           | None => ""
           end)
      st processed_ids in
  let fs := save fs st in
  Ok ({| digest := digest_; new_article_ids := processed_ids |}, fs).

Definition write_digest (fs : filesystem) (d : Digest) (p : path) : filesystem :=
  write_text fs p (Plain (to_markdown d)).

(** [run(config)]: the result, the disk and what was printed. *)
Definition run (env : environ) (net : network) (fs : filesystem)
    (config : option Config)
    : result (DigestResult * filesystem * list string) :=
  let config := match config with Some c => c | None => load_config env end in
  let! (res, fs) := build_digest net fs config in
  match items (digest res) with
  | _ :: _ =>
      let fs := write_digest fs (digest res) (digest_path strftime config) in
      Ok (res, fs, [to_markdown (digest res)])
  | [] => Ok (res, fs, [])
  end.

End with_libraries.
End digest.

(** ** __main__.py *)

Module main_.

Import config digest.

Record Namespace : Type := {
  verbose : bool;
  output : option path
}.

(** [Path.parent]. *)
Definition parent (p : path) : path := removelast p.

Section with_libraries.

Variable lsa : string -> nat -> list string.
Variable sha256_hex : string -> string.
Variable dateutil_parse : string -> option datetime.
Variable html_text : string -> string.
Variable strftime : datetime -> string -> string.

(** [main()], given the parsed arguments: the disk and what was printed. *)
Definition main (args : Namespace) (env : environ) (net : network)
    (fs : filesystem) : result (filesystem * list string) :=
  let config := load_config env in
  let config :=
    match output args with
    | Some o => replace_digest_dir config (parent o)
    | None => config
    end in
  let! (res, fs, printed) :=
    run lsa sha256_hex dateutil_parse html_text strftime env net fs
      (Some config) in
  match output args with
  | Some o => Ok (write_text fs o (Plain (to_markdown strftime (digest res))), printed)
  | None => Ok (fs, printed)
  end.

End with_libraries.
End main_.

(** ** Reference definitions for the statements *)

Module reference.

Import models config.

(** The batch of one run: what the fetchers return, in iteration order; a
    fetcher that raises contributes nothing. *)
Definition fetched (config : Config) (fetchers : list fetchers.NewsFetcher)
    : list Article :=
  flat_map
    (fun f => match fetchers.fetch f config with Ok l => l | Raise _ => [] end)
    fetchers.

(** First seen wins: an item stays when no earlier item has its id;
    [earlier] holds the ids met so far. *)
Fixpoint first_seen_wins_from (earlier : gset string) (l : list Article)
    : list Article :=
  match l with
  | [] => []
  | a :: rest =>
      if bool_decide (id a ∈ earlier) then first_seen_wins_from earlier rest
      else a :: first_seen_wins_from (earlier ∪ {[id a]}) rest
  end.

Definition first_seen_wins (l : list Article) : list Article :=
  first_seen_wins_from ∅ l.

(** A string without the character that joins title and summary hint. *)
Definition no_space (k : string) : Prop :=
  forall c, c ∈ list_ascii_of_string k -> c <> " "%char.

(** The relevant items of a batch. *)
Definition relevant (l : list Article) : list Article :=
  filter (fun a => fetchers._is_relevant a = true) l.

(** The identities of the history a run would load from the disk. *)
Definition recorded (fs : filesystem) (config : Config) : gset string :=
  match state.__init__ fs (state_file config) with
  | Ok (st, _) =>
      match state.seen_ids st with Ok ids => ids | Raise _ => ∅ end
  | Raise _ => ∅
  end.

(** The entry of the report made from an article and its summary. *)
Definition rendered (article : Article) (summary_ : string) : digest.DigestItem :=
  {| digest.title := title article;
     digest.source := source article;
     digest.url := url article;
     digest.published_at := published_at article;
     digest.summary := summary_ |}.

(** The article has text to summarize once [best_text] has run. *)
Definition has_text (net : network) (a : Article) : Prop :=
  truthy_opt (fst (content.best_text (page_answer net) a)) = true.

(** The entry [build_digest] makes for an article that has text. *)
Definition entry (lsa : string -> nat -> list string) (net : network)
    (a : Article) : digest.DigestItem :=
  rendered a
    (summarizer.summarize_text lsa
       (default "" (fst (content.best_text (page_answer net) a))) 3).

#[global] Instance has_text_dec (net : network) (a : Article) :
  Decision (has_text net a).
Proof. unfold has_text. apply _. Defined.

(** All sort keys of the list are naive, or all are aware. *)
Definition uniform (l : list Article) : Prop :=
  forall a b, a ∈ l -> b ∈ l ->
    tz_aware (digest.sort_key a) = tz_aware (digest.sort_key b).

(** Later in time first. *)
Definition descending (l : list Article) : Prop :=
  StronglySorted
    (fun a b => (ticks (digest.sort_key b) <= ticks (digest.sort_key a))%N) l.

(** The history after the ids were marked. *)
Definition marked (fresh_articles : list Article) (d : gmap string jvalue)
    (ids : list string) : gmap string jvalue :=
  foldl
    (fun d article_id =>
       <[article_id :=
           JStr match digest.matching fresh_articles article_id with
                | Some a => title a
                | None => ""
                end]> d)
    d ids.

(** The identities a history document records. *)
Definition ids_of (j : json) : gset string :=
  match j with JObject d => dom d | _ => ∅ end.

(** The new ids of a run, when it returns, and the disk it leaves. *)
Definition new_ids_of (r : result (digest.DigestResult * filesystem))
    : option (list string) :=
  match r with
  | Ok (res, _) => Some (digest.new_article_ids res)
  | Raise _ => None
  end.

Definition disk_of (fs : filesystem)
    (r : result (digest.DigestResult * filesystem)) : filesystem :=
  match r with
  | Ok (_, fs') => fs'
  | Raise _ => fs
  end.

(** The file at [p] after [main], when it returns. *)
Definition file_after (r : result (filesystem * list string)) (p : path)
    : option file :=
  match r with
  | Ok (fs', _) => fs' !! p
  | Raise _ => None
  end.

(** The history document after a run that marked [ids]. *)
Definition data_after (fresh_articles : list Article) (j : json)
    (ids : list string) : json :=
  match j with
  | JObject d => JObject (marked fresh_articles d ids)
  | _ => j
  end.

End reference.

(** ** Sample data *)

Module sample.

Import models config.

(** Stand-ins for the libraries; no statement depends on the choice. *)
Definition lsa (text : string) (n : nat) : list string := [].
Definition sha256_hex (s : string) : string := s.
(** 2024-05-01T12:00:00 UTC. *)
Definition aware_noon : datetime :=
  {| tz_aware := true; ticks := 63850161600000000 |}.
Definition dateutil_parse (s : string) : option datetime :=
  if String.eqb s "2024-05-01T12:00:00Z" then Some aware_noon else None.
Definition html_text (s : string) : string := s.
Definition strftime (d : datetime) (format : string) : string := format.

Definition env : environ :=
  {| NEWSAPI_KEY := Some "key"; PAYPAL_DIGEST_DATA_DIR := None;
     utcnow := {| tz_aware := false; ticks := 63850237200000000 |} |}.

Definition cfg : Config := load_config env.

Definition article (title_ url_ : string) (summary_ : option string)
    (published : option datetime) (id_ : string) : Article :=
  {| title := title_; url := url_; source := Some "PYMNTS";
     published_at := published; summary := summary_; content := None;
     author := None; id := id_ |}.

(** A network on which every request fails. *)
Definition offline : network :=
  {| newsapi_answer := fun _ => Failed ConnectionError;
     google_answer := Failed ConnectionError;
     pymnts_answer := Failed ReadTimeout;
     page_answer := fun _ => Failed ConnectionError |}.

(** NewsAPI refuses the credential, the feed times out, and the listing
    page is markup the parser rejects. *)
Definition unauthorized : network :=
  {| newsapi_answer := fun _ => Response 401 None;
     google_answer := Failed ReadTimeout;
     pymnts_answer := Response 200 None;
     page_answer := fun _ => Failed ConnectionError |}.

(** A network on which NewsAPI answers 200 with a body that is no JSON. *)
Definition garbled : network :=
  {| newsapi_answer := fun _ => Response 200 None;
     google_answer := Failed ConnectionError;
     pymnts_answer := Failed ReadTimeout;
     page_answer := fun _ => Failed ConnectionError |}.

(** Two items of one identity: the same url listed twice, first under a
    title that does not name the subject. *)
Definition listed_first : Article :=
  article "Market closes higher" "https://example.com/a"
    (Some "Tech stocks rally") None "id-a".
Definition listed_second : Article :=
  article "PayPal shares close higher" "https://example.com/a"
    (Some "Tech stocks rally") None "id-a".

(** The listing page shows one card, without excerpt and without date; the
    linked page cannot be fetched. *)
Definition one_card : network :=
  {| newsapi_answer := fun _ => Failed ConnectionError;
     google_answer := Failed ConnectionError;
     pymnts_answer :=
       Response 200
         (Some
            [{| card_header :=
                  Some ("PayPal expands checkout",
                        Some "https://www.pymnts.com/p1");
                card_excerpt := None;
                card_time := None |}]);
     page_answer := fun _ => Failed ConnectionError |}.

(** The same answers from the three sources; the linked page is up. *)
Definition one_card_page_up : network :=
  {| newsapi_answer := newsapi_answer one_card;
     google_answer := google_answer one_card;
     pymnts_answer := pymnts_answer one_card;
     page_answer := fun _ => Response 200 ["PayPal said on Monday."] |}.

(** NewsAPI answers with two items about the subject: one dated, with the
    time zone designator the API sends, and one without a date. *)
Definition dated_item : api_item :=
  {| item_title := Some "PayPal beats estimates";
     item_url := Some "https://example.com/earnings";
     item_content := None;
     item_description := Some "PayPal reported quarterly earnings.";
     item_publishedAt := Some "2024-05-01T12:00:00Z";
     item_source := SourceObject (Name "Reuters");
     item_author := None |}.

Definition undated_item : api_item :=
  {| item_title := Some "PayPal launches wallet";
     item_url := Some "https://example.com/wallet";
     item_content := None;
     item_description := Some "A new PYPL product.";
     item_publishedAt := None;
     item_source := SourceObject (Name "Reuters");
     item_author := None |}.

Definition dated_and_undated : network :=
  {| newsapi_answer :=
       fun _ => Response 200
                  (Some (PayloadObject (ArticlesList [dated_item; undated_item])));
     google_answer := Failed ConnectionError;
     pymnts_answer := Failed ReadTimeout;
     page_answer := fun _ => Failed ConnectionError |}.

(** Three articles with naive dates: T, none, and T minus one day. *)
Definition day : N := 86400000000.
Definition naive (t : N) : option datetime :=
  Some {| tz_aware := false; ticks := t |}.
Definition article_A : Article :=
  article "PayPal A" "https://example.com/A" None (naive (10 * day)) "A".
Definition article_B : Article :=
  article "PayPal B" "https://example.com/B" None None "B".
Definition article_C : Article :=
  article "PayPal C" "https://example.com/C" None (naive (9 * day)) "C".

(** The command line [--output out.md]. *)
Definition output_given : main_.Namespace :=
  {| main_.verbose := false; main_.output := Some ["out.md"] |}.

(** A heap with one article object, without content, at reference 0. *)
Definition memory0 : content.memory :=
  {| content.heap := {[ 0%nat := article_B ]}; content.requested := [] |}.

(** NewsAPI answers with a usable item and one whose "source" is null. *)
Definition null_source_item : api_item :=
  {| item_title := Some "PayPal names new CFO";
     item_url := Some "https://example.com/cfo";
     item_content := None;
     item_description := None;
     item_publishedAt := None;
     item_source := SourceNull;
     item_author := None |}.

Definition with_null_source : network :=
  {| newsapi_answer :=
       fun _ => Response 200
                  (Some (PayloadObject
                           (ArticlesList [undated_item; null_source_item])));
     google_answer := Failed ConnectionError;
     pymnts_answer := Failed ReadTimeout;
     page_answer := fun _ => Failed ConnectionError |}.

(** The listing page shows one card that does not name the subject. *)
Definition off_topic_card : network :=
  {| newsapi_answer := fun _ => Failed ConnectionError;
     google_answer := Failed ConnectionError;
     pymnts_answer :=
       Response 200
         (Some
            [{| card_header :=
                  Some ("Market closes higher",
                        Some "https://www.pymnts.com/m1");
                card_excerpt := Some "Tech stocks rally";
                card_time := None |}]);
     page_answer := fun _ => Failed ConnectionError |}.

(** A disk whose state file holds the JSON document [[]]. *)
Definition list_state : filesystem :=
  {[ ["data"; "state.json"] := Readable (Json (JArray [])) ]}.

(** The listing page shows four cards about the subject, each with an
    excerpt: dated T, undated, dated T minus one day, and dated T again;
    the dates carry no time zone. *)
Definition parse_naive (s : string) : option datetime :=
  if String.eqb s "2024-05-01T12:00:00" then naive 63850161600000000
  else if String.eqb s "2024-04-30T12:00:00" then naive 63850075200000000
  else None.

Definition listed (letter : string) (time_ : option (option string)) : card :=
  {| card_header :=
       Some ("PayPal " +:+ letter, Some ("https://www.pymnts.com/" +:+ letter));
     card_excerpt := Some ("PayPal said " +:+ letter);
     card_time := time_ |}.

Definition all_down : network :=
  {| newsapi_answer := fun _ => Response 401 None;
     google_answer := Failed ReadTimeout;
     pymnts_answer := Response 503 None;
     page_answer := fun _ => Failed ConnectionError |}.

Definition four_cards : network :=
  {| newsapi_answer := fun _ => Failed ConnectionError;
     google_answer := Failed ConnectionError;
     pymnts_answer :=
       Response 200
         (Some [listed "A" (Some (Some "2024-05-01T12:00:00"));
                listed "B" None;
                listed "C" (Some (Some "2024-04-30T12:00:00"));
                listed "D" (Some (Some "2024-05-01T12:00:00"))]);
     page_answer := fun _ => Failed ConnectionError |}.

(** A fetcher that returns the given articles. *)
Definition canned (items : list Article) : fetchers.NewsFetcher :=
  {| fetchers.name := "canned"; fetchers.fetch := fun _ => Ok items |}.

End sample.

(** ** Shapes of strings, items and articles *)

Module shape.

Import models.

(** No character of [s] is whitespace. *)
Fixpoint solid (s : string) : bool :=
  match s with
  | EmptyString => true
  | String c s' => negb (Str.is_space c) && solid s'
  end.

(** A token as [split] returns them: not empty, without whitespace. *)
Definition token (s : string) : bool := Str.truthy s && solid s.

(** The last character of [s] is there and is not whitespace. *)
Fixpoint ends_visible (s : string) : bool :=
  match s with
  | EmptyString => false
  | String c EmptyString => negb (Str.is_space c)
  | String _ s' => ends_visible s'
  end.

(** The first character of [s] is there and is not whitespace. *)
Definition starts_visible (s : string) : bool :=
  match s with
  | EmptyString => false
  | String c _ => negb (Str.is_space c)
  end.


(** The item would become an article, and its "source" is null or is no
    object. *)
Definition bad_source (item : api_item) : bool :=
  truthy_opt (item_title item) && truthy_opt (item_url item)
  && match item_source item with
     | SourceNull | SourceOther => true
     | _ => false
     end.


(** The request fails in a way the fetchers and the enricher catch: it
    raises a [RequestException], or it is answered with an error status. *)
Definition down {B} (answer : http B) : Prop :=
  match answer with
  | Failed _ => True
  | Response status _ => (400 <= status < 600)%Z
  end.

(** The date an entry of the report is ordered by. *)
Definition item_key (item : digest.DigestItem) : datetime :=
  default datetime_min (digest.published_at item).

(** The article is ordered at position [t] of the time line. *)
Definition dated (t : N) (a : Article) : Prop :=
  ticks (digest.sort_key a) = t.

#[global] Instance dated_dec (t : N) (a : Article) : Decision (dated t a).
Proof. unfold dated. apply _. Defined.

End shape.

(** * Properties *)

(** ** Strings *)

Lemma truthy_app_l (s t : string) :
  Str.truthy s = true -> Str.truthy (s +:+ t) = true.
Proof. destruct s; [discriminate | reflexivity]. Qed.

Lemma truthy_app_r (s t : string) :
  Str.truthy t = true -> Str.truthy (s +:+ t) = true.
Proof. destruct s; [trivial | reflexivity]. Qed.

Lemma truthy_join_cons (sep p : string) (rest : list string) :
  Str.truthy p = true -> Str.truthy (Str.join sep (p :: rest)) = true.
Proof.
  intros Hp. destruct rest as [|q rest]; simpl; [exact Hp|].
  now apply truthy_app_l.
Qed.

(** Every token [split] returns has a character. *)
Lemma split_from_tokens (s cur : string) :
  Forall (fun t => Str.truthy t = true) (Str.split_from cur s).
Proof.
  revert cur. induction s as [|c s IH]; intros cur; simpl.
  - destruct (Str.truthy cur) eqn:E; auto.
  - destruct (Str.is_space c); [|apply IH].
    destruct (Str.truthy cur) eqn:E; [constructor; auto | apply IH].
Qed.

(** A run in progress or a visible character ahead yields a token. *)
Lemma split_from_nonempty (s cur : string) :
  Str.truthy cur = true \/ Str.has_visible s = true ->
  Str.split_from cur s <> [].
Proof.
  revert cur. induction s as [|c s IH]; intros cur H; simpl in *.
  - destruct H as [H|H]; [rewrite H; discriminate | discriminate].
  - destruct (Str.is_space c) eqn:Ec; simpl in H.
    + destruct (Str.truthy cur) eqn:E; [discriminate|].
      apply IH. destruct H as [H|H]; [discriminate | now right].
    + apply IH. left. now apply truthy_app_r.
Qed.

Lemma split_visible (text : string) :
  Str.has_visible text = true ->
  exists token rest, Str.split text = token :: rest /\ Str.truthy token = true.
Proof.
  intros H. unfold Str.split.
  pose proof (split_from_tokens text EmptyString) as Hall.
  pose proof (split_from_nonempty text EmptyString (or_intror H)) as Hne.
  destruct (Str.split_from EmptyString text) as [|token rest]; [congruence|].
  exists token, rest. split; [reflexivity|]. now inversion Hall.
Qed.

(** A text without a visible character has no token. *)
Lemma split_from_blank (s : string) :
  Str.has_visible s = false -> Str.split_from EmptyString s = [].
Proof.
  induction s as [|c s IH]; simpl; [reflexivity|].
  intros H. apply orb_false_iff in H as [Hc Hs].
  apply negb_false_iff in Hc. rewrite Hc. simpl. now apply IH.
Qed.

(** ** summarizer.py *)

(** C1, as amended: for every text with at least one character that is not
    whitespace, whatever the extractive pass selects, [summarize_text]
    returns a non-empty string; when the stripped extract is empty the
    result is the first 60 whitespace-delimited tokens of the text joined
    by single spaces. *)
Theorem summarize_text_visible_nonempty
    (lsa : string -> nat -> list string) (text : string) (sentence_count : nat) :
  Str.has_visible text = true ->
  Str.truthy (summarizer.summarize_text lsa text sentence_count) = true
  /\ (Str.strip (Str.join " " (lsa text sentence_count)) = ""
      -> summarizer.summarize_text lsa text sentence_count
         = Str.join " " (take 60 (Str.split text))).
Proof.
  intros Hvis. unfold summarizer.summarize_text.
  destruct (Str.truthy (Str.strip (Str.join " " (lsa text sentence_count)))) eqn:E;
    simpl.
  - split; [exact E|]. intros H. rewrite H in E. discriminate.
  - split; [|reflexivity].
    destruct (split_visible text Hvis) as (token & rest & -> & Htok).
    simpl. now apply truthy_join_cons.
Qed.

Lemma summarize_text_visible_nonempty_witness :
  Str.has_visible "PayPal beats estimates" = true
  /\ Str.truthy (summarizer.summarize_text sample.lsa "PayPal beats estimates" 3) = true.
Proof.
  split; [reflexivity|].
  apply (summarize_text_visible_nonempty sample.lsa "PayPal beats estimates" 3).
  reflexivity.
Defined.

(** C1 fails as stated: a text made of one space is not empty, the
    extractive pass selects nothing from it, and the fall-back has no token
    to join. *)
Lemma summarize_text_blank_is_empty :
  " " <> ""
  /\ summarizer.summarize_text (fun _ _ => []) " " 3 = "".
Proof. split; [discriminate | reflexivity]. Qed.

(** The fall-back is empty exactly on texts without a visible character. *)
Lemma summarize_text_fallback_blank (text : string) (sentence_count : nat) :
  Str.has_visible text = false ->
  summarizer.summarize_text (fun _ _ => []) text sentence_count = "".
Proof.
  intros H. unfold summarizer.summarize_text, Str.split. simpl.
  now rewrite split_from_blank.
Qed.

(** ** state.py *)

Lemma seen_ids_empty (p : path) :
  state.seen_ids {| state.path_ := p; state._data := JObject ∅ |} = Ok ∅.
Proof. unfold state.seen_ids; cbn [state._data]. now rewrite dom_empty_L. Qed.

(** C3, as amended: when the state file is missing, constructing the store
    returns a store with an empty history and logs nothing; when it is
    there and holds text that [json.loads] rejects with [JSONDecodeError],
    the store has an empty history and a warning is logged.  A state file
    that cannot be read makes the constructor raise the error of the read,
    and a text on which [json.loads] raises another error makes it raise
    that error. *)
Theorem StateStore_missing_or_malformed (fs : filesystem) (p : path) :
  (fs !! p = None ->
   state.__init__ fs p
   = Ok ({| state.path_ := p; state._data := JObject ∅ |}, []))
  /\ (forall s,
        fs !! p = Some (Readable (Plain s)) ->
        exists msg,
          state.__init__ fs p
          = Ok ({| state.path_ := p; state._data := JObject ∅ |}, [WARNING msg]))
  /\ (forall k,
        fs !! p = Some (Unreadable k) ->
        state.__init__ fs p = Raise (read_failure_exn k))
  /\ (forall k,
        fs !! p = Some (Readable (Unloadable k)) ->
        state.__init__ fs p = Raise (loads_failure_exn k))
  /\ state.seen_ids {| state.path_ := p; state._data := JObject ∅ |} = Ok ∅.
Proof.
  unfold state.__init__, state._load, exists_, read_text.
  cbn [state.path_ state._data].
  split; [|split; [|split; [|split]]].
  - intros H. rewrite H.
    now rewrite bool_decide_eq_false_2 by (intros [? ?]; discriminate).
  - intros s H. rewrite H. rewrite bool_decide_eq_true_2 by eauto.
    eexists. reflexivity.
  - intros k H. rewrite H. rewrite bool_decide_eq_true_2 by eauto.
    now destruct k.
  - intros k H. rewrite H. rewrite bool_decide_eq_true_2 by eauto.
    now destruct k.
  - apply seen_ids_empty.
Qed.

Lemma StateStore_missing_or_malformed_witness :
  ({[ ["data"; "state.json"] := Readable (Plain "{ not json") ]} : filesystem)
    !! ["data"; "state.json"] = Some (Readable (Plain "{ not json"))
  /\ (exists msg,
        state.__init__
          ({[ ["data"; "state.json"] := Readable (Plain "{ not json") ]} : filesystem)
          ["data"; "state.json"]
        = Ok ({| state.path_ := ["data"; "state.json"];
                 state._data := JObject ∅ |}, [WARNING msg]))
  /\ state.__init__ (∅ : filesystem) ["data"; "state.json"]
     = Ok ({| state.path_ := ["data"; "state.json"];
              state._data := JObject ∅ |}, [])
  /\ state.__init__
       ({[ ["data"; "state.json"] := Unreadable CannotDecode ]} : filesystem)
       ["data"; "state.json"]
     = Raise UnicodeDecodeError
  /\ state.__init__
       ({[ ["data"; "state.json"] := Readable (Unloadable TooDeep) ]} : filesystem)
       ["data"; "state.json"]
     = Raise RecursionError.
Proof.
  split; [apply lookup_singleton_eq|]. split; [|split; [|split]].
  - destruct (StateStore_missing_or_malformed
                ({[ ["data"; "state.json"] := Readable (Plain "{ not json") ]})
                ["data"; "state.json"]) as (_ & H & _).
    apply (H "{ not json"). apply lookup_singleton_eq.
  - destruct (StateStore_missing_or_malformed ∅ ["data"; "state.json"])
      as (H & _).
    apply H. apply lookup_empty.
  - destruct (StateStore_missing_or_malformed
                ({[ ["data"; "state.json"] := Unreadable CannotDecode ]})
                ["data"; "state.json"]) as (_ & _ & H & _).
    apply (H CannotDecode). apply lookup_singleton_eq.
  - destruct (StateStore_missing_or_malformed
                ({[ ["data"; "state.json"] := Readable (Unloadable TooDeep) ]})
                ["data"; "state.json"]) as (_ & _ & _ & H & _).
    apply (H TooDeep). apply lookup_singleton_eq.
Defined.

(** C3 fails as stated: a state file that is there and cannot be read (no
    permission, a directory, bytes that are not UTF-8) makes the
    constructor raise. *)
Lemma StateStore_unreadable_raises :
  state.__init__
    ({[ ["data"; "state.json"] := Unreadable CannotOpen ]} : filesystem)
    ["data"; "state.json"]
  = Raise OSError.
Proof.
  unfold state.__init__, state._load, exists_, read_text. simpl.
  rewrite lookup_singleton_eq.
  rewrite bool_decide_eq_true_2 by eauto. reflexivity.
Qed.

(** A state file that holds JSON is loaded as it is, without a warning,
    also when the document is no object; [seen_ids] then raises. *)
Lemma StateStore_json_loaded (fs : filesystem) (p : path) (j : json) :
  fs !! p = Some (Readable (Json j)) ->
  state.__init__ fs p = Ok ({| state.path_ := p; state._data := j |}, []).
Proof.
  intros H. unfold state.__init__, state._load, exists_, read_text. simpl.
  rewrite H. rewrite bool_decide_eq_true_2 by eauto. reflexivity.
Qed.

(** ** fetchers.py *)

Lemma get_ok_raises {B} (answer : http B) (exc : exn) :
  get_ok answer = Raise exc -> is_RequestException exc = true.
Proof.
  destruct answer as [k | status body]; simpl.
  - intros [= <-]. reflexivity.
  - destruct (_ && _)%Z; [intros [= <-]; reflexivity | discriminate].
Qed.

Lemma not_returns {A} (r : result A) :
  returns r = false -> exists exc, r = Raise exc.
Proof. destruct r; [discriminate | eauto]. Qed.

Lemma collect_from_app (config : config.Config)
    (before after : list fetchers.NewsFetcher) :
  fetchers.collect_from config (before ++ after)
  = fst (foldl (fetchers.collect_fetcher config)
           (foldl (fetchers.collect_fetcher config) ([], ∅) before) after).
Proof. unfold fetchers.collect_from. now rewrite foldl_app. Qed.

Lemma get_ok_error_status {B} (status : Z) (body : B) :
  (400 <= status < 600)%Z ->
  get_ok (Response status body) = Raise (RequestException HTTPError).
Proof.
  intros [H1 H2]. simpl.
  now rewrite (proj2 (Z.leb_le _ _) H1), (proj2 (Z.ltb_lt _ _) H2).
Qed.

Lemma get_ok_good_status {B} (status : Z) (body : B) :
  ~ (400 <= status < 600)%Z -> get_ok (Response status body) = Ok body.
Proof.
  intros H. simpl.
  destruct (400 <=? status)%Z eqn:E1; destruct (status <? 600)%Z eqn:E2;
    try reflexivity.
  exfalso. apply H. split; [now apply Z.leb_le | now apply Z.ltb_lt].
Qed.

(** C4, as amended: a missing credential, a request that raises a
    [RequestException], and an answer with an error status (4xx or 5xx,
    which is how a failed authentication comes back) make a fetcher return
    zero items.  A body that cannot be decoded or parsed makes the fetcher
    raise, and when a fetcher raises, [collect_articles] goes on as if that
    fetcher were not in the list. *)
Theorem fetchers_degrade_to_zero_items
    (sha256_hex : string -> string)
    (dateutil_parse : string -> option datetime)
    (html_text : string -> string)
    (net : network) (config : config.Config) :
  (truthy_opt (config.newsapi_key config) = false ->
   fetchers.NewsAPIFetcher_fetch sha256_hex dateutil_parse net config = Ok [])
  /\ (forall k,
        newsapi_answer net config = Failed k ->
        fetchers.NewsAPIFetcher_fetch sha256_hex dateutil_parse net config = Ok [])
  /\ (forall status body,
        newsapi_answer net config = Response status body ->
        (400 <= status < 600)%Z ->
        fetchers.NewsAPIFetcher_fetch sha256_hex dateutil_parse net config = Ok [])
  /\ (forall k,
        google_answer net = Failed k ->
        fetchers.GoogleNewsFetcher_fetch sha256_hex dateutil_parse html_text net
          config = Ok [])
  /\ (forall status body,
        google_answer net = Response status body ->
        (400 <= status < 600)%Z ->
        fetchers.GoogleNewsFetcher_fetch sha256_hex dateutil_parse html_text net
          config = Ok [])
  /\ (forall k,
        pymnts_answer net = Failed k ->
        fetchers.PYMNTSFetcher_fetch sha256_hex dateutil_parse net config = Ok [])
  /\ (forall status body,
        pymnts_answer net = Response status body ->
        (400 <= status < 600)%Z ->
        fetchers.PYMNTSFetcher_fetch sha256_hex dateutil_parse net config = Ok [])
  /\ (forall status,
        truthy_opt (config.newsapi_key config) = true ->
        newsapi_answer net config = Response status None ->
        ~ (400 <= status < 600)%Z ->
        fetchers.NewsAPIFetcher_fetch sha256_hex dateutil_parse net config
        = Raise (RequestException InvalidJSON))
  /\ (forall status,
        pymnts_answer net = Response status None ->
        ~ (400 <= status < 600)%Z ->
        fetchers.PYMNTSFetcher_fetch sha256_hex dateutil_parse net config
        = Raise ParserRejectedMarkup)
  /\ (forall before f after exc,
        fetchers.fetch f config = Raise exc ->
        fetchers.collect_from config (before ++ f :: after)
        = fetchers.collect_from config (before ++ after)).
Proof.
  unfold fetchers.NewsAPIFetcher_fetch, fetchers.GoogleNewsFetcher_fetch,
    fetchers.PYMNTSFetcher_fetch.
  repeat split.
  - intros Hkey. now rewrite Hkey.
  - intros k Hk. rewrite Hk. now destruct (truthy_opt _).
  - intros status body Hr Hs. rewrite Hr, (get_ok_error_status _ _ Hs).
    now destruct (truthy_opt _).
  - intros k Hk. now rewrite Hk.
  - intros status body Hr Hs. now rewrite Hr, (get_ok_error_status _ _ Hs).
  - intros k Hk. now rewrite Hk.
  - intros status body Hr Hs. now rewrite Hr, (get_ok_error_status _ _ Hs).
  - intros status Hkey Hr Hs. now rewrite Hkey, Hr, (get_ok_good_status _ _ Hs).
  - intros status Hr Hs. now rewrite Hr, (get_ok_good_status _ _ Hs).
  - intros before f after exc Hraise.
    rewrite !collect_from_app. simpl.
    unfold fetchers.collect_fetcher at 2. now rewrite Hraise.
Qed.

Lemma fetchers_degrade_to_zero_items_witness :
  newsapi_answer sample.unauthorized sample.cfg = Response 401 None
  /\ fetchers.NewsAPIFetcher_fetch sample.sha256_hex sample.dateutil_parse
       sample.unauthorized sample.cfg = Ok []
  /\ fetchers.GoogleNewsFetcher_fetch sample.sha256_hex sample.dateutil_parse
       sample.html_text sample.unauthorized sample.cfg = Ok []
  /\ fetchers.PYMNTSFetcher_fetch sample.sha256_hex sample.dateutil_parse
       sample.unauthorized sample.cfg = Raise ParserRejectedMarkup
  /\ fetchers.collect_from sample.cfg
       ([] ++ fetchers.PYMNTSFetcher sample.sha256_hex sample.dateutil_parse
                sample.unauthorized :: [])
     = fetchers.collect_from sample.cfg ([] ++ []).
Proof.
  split; [reflexivity|].
  destruct (fetchers_degrade_to_zero_items sample.sha256_hex
              sample.dateutil_parse sample.html_text sample.unauthorized
              sample.cfg)
    as (_ & _ & Hnews & Hgoogle & _ & _ & _ & _ & Hpymnts & Hcollect).
  split; [|split; [|split]].
  - apply (Hnews 401%Z None eq_refl). lia.
  - apply (Hgoogle ReadTimeout eq_refl).
  - apply (Hpymnts 200%Z eq_refl). lia.
  - apply (Hcollect [] _ [] ParserRejectedMarkup). reflexivity.
Defined.

(** C4 fails as stated: with a credential configured and an answer 200
    whose body is no JSON, [NewsAPIFetcher.fetch] raises to its caller. *)
Lemma NewsAPIFetcher_fetch_undecodable_raises :
  fetchers.NewsAPIFetcher_fetch sample.sha256_hex sample.dateutil_parse
    sample.garbled sample.cfg
  = Raise (RequestException InvalidJSON).
Proof. reflexivity. Qed.

(** *** The two loops of [collect_articles] *)

Lemma first_seen_wins_from_app (earlier : gset string) (l1 l2 : list models.Article) :
  reference.first_seen_wins_from earlier (l1 ++ l2)
  = reference.first_seen_wins_from earlier l1
    ++ reference.first_seen_wins_from
         (earlier ∪ list_to_set (map models.id (reference.first_seen_wins_from earlier l1)))
         l2.
Proof.
  revert earlier. induction l1 as [|a l1 IH]; intros earlier; simpl.
  - f_equal. set_solver.
  - case_bool_decide.
    + apply IH.
    + simpl. f_equal. rewrite IH. do 2 f_equal. set_solver.
Qed.

Lemma collect_article_loop (items agg : list models.Article) (seen : gset string) :
  foldl fetchers.collect_article (agg, seen) items
  = (agg ++ reference.first_seen_wins_from seen (reference.relevant items),
     seen ∪ list_to_set
              (map models.id
                 (reference.first_seen_wins_from seen (reference.relevant items)))).
Proof.
  revert agg seen. induction items as [|a items IH]; intros agg seen; simpl.
  - rewrite app_nil_r. f_equal. set_solver.
  - unfold reference.relevant. rewrite filter_cons.
    fold (reference.relevant items).
    case_bool_decide as Hseen.
    + rewrite IH. destruct (decide _) as [Hrel|Hrel]; [|reflexivity].
      simpl. now rewrite bool_decide_eq_true_2.
    + destruct (fetchers._is_relevant a) eqn:Hrel; simpl.
      * rewrite bool_decide_eq_false_2 by assumption.
        rewrite IH. rewrite <- app_assoc. simpl. f_equal. set_solver.
      * apply IH.
Qed.

Lemma collect_fetcher_loop (config : config.Config)
    (fs : list fetchers.NewsFetcher) (agg : list models.Article) (seen : gset string) :
  foldl (fetchers.collect_fetcher config) (agg, seen) fs
  = (agg ++ reference.first_seen_wins_from seen
              (reference.relevant (reference.fetched config fs)),
     seen ∪ list_to_set
              (map models.id
                 (reference.first_seen_wins_from seen
                    (reference.relevant (reference.fetched config fs))))).
Proof.
  revert agg seen. induction fs as [|f fs IH]; intros agg seen; simpl.
  - rewrite app_nil_r. f_equal. set_solver.
  - unfold reference.relevant. rewrite filter_app.
    fold (reference.relevant (reference.fetched config fs)).
    rewrite first_seen_wins_from_app.
    unfold fetchers.collect_fetcher at 2.
    destruct (fetchers.fetch f config) as [items | exc].
    + rewrite collect_article_loop, IH. unfold reference.relevant.
      rewrite <- app_assoc. f_equal. rewrite map_app, list_to_set_app_L.
      set_solver.
    + rewrite IH. simpl. f_equal.
      * do 2 f_equal. set_solver.
      * do 4 f_equal. set_solver.
Qed.

Lemma collect_from_first_seen_wins (config : config.Config)
    (fs : list fetchers.NewsFetcher) :
  fetchers.collect_from config fs
  = reference.first_seen_wins (reference.relevant (reference.fetched config fs)).
Proof. unfold fetchers.collect_from. now rewrite collect_fetcher_loop. Qed.

Lemma first_seen_wins_from_elem (earlier : gset string) (l : list models.Article)
    (a : models.Article) :
  a ∈ reference.first_seen_wins_from earlier l -> a ∈ l /\ models.id a ∉ earlier.
Proof.
  revert earlier. induction l as [|b l IH]; intros earlier; simpl.
  - intros H. inversion H.
  - case_bool_decide as Hb.
    + intros H. destruct (IH _ H). split; [now right | assumption].
    + intros H. apply elem_of_cons in H as [-> | H].
      * split; [now left | assumption].
      * destruct (IH _ H) as [? Hn]. split; [now right | set_solver].
Qed.

Lemma first_seen_wins_from_NoDup (earlier : gset string) (l : list models.Article) :
  NoDup (map models.id (reference.first_seen_wins_from earlier l)).
Proof.
  revert earlier. induction l as [|b l IH]; intros earlier; simpl.
  - constructor.
  - case_bool_decide as Hb; [apply IH|].
    simpl. constructor; [|apply IH].
    intros Hin. apply list_elem_of_In, in_map_iff in Hin as (c & Hid & Hc).
    apply list_elem_of_In, first_seen_wins_from_elem in Hc as [_ Hc].
    rewrite Hid in Hc. set_solver.
Qed.

Lemma first_seen_wins_from_keeps (earlier : gset string)
    (l1 l2 : list models.Article) (a : models.Article) :
  models.id a ∉ earlier ->
  (forall b, b ∈ l1 -> models.id b <> models.id a) ->
  a ∈ reference.first_seen_wins_from earlier (l1 ++ a :: l2).
Proof.
  revert earlier. induction l1 as [|b l1 IH]; intros earlier Hearlier Hl1; simpl.
  - rewrite bool_decide_eq_false_2 by assumption. now left.
  - assert (Hb : models.id b <> models.id a) by (apply Hl1; now left).
    assert (Hrest : forall c, c ∈ l1 -> models.id c <> models.id a)
      by (intros c Hc; apply Hl1; now right).
    case_bool_decide.
    + now apply IH.
    + right. apply IH; [set_solver | assumption].
Qed.

Lemma NoDup_map_eq {A B} (f : A -> B) (l : list A) (x y : A) :
  NoDup (map f l) -> x ∈ l -> y ∈ l -> f x = f y -> x = y.
Proof.
  induction l as [|z l IH]; simpl; intros Hnd Hx Hy Hf.
  - inversion Hx.
  - apply NoDup_cons in Hnd as [Hz Hnd].
    apply elem_of_cons in Hx as [-> | Hx]; apply elem_of_cons in Hy as [-> | Hy];
      auto.
    + exfalso. apply Hz. rewrite Hf. apply list_elem_of_In, in_map.
      now apply list_elem_of_In.
    + exfalso. apply Hz. rewrite <- Hf. apply list_elem_of_In, in_map.
      now apply list_elem_of_In.
Qed.

(** C6, as amended: the aggregated output is what first-seen-wins leaves of
    the relevant items of the batch, read in fetcher order and then item
    order.  No two items of the output share an identity; the first
    relevant item of an identity is in the output, and it is the only item
    of the output with that identity. *)
Theorem collect_first_relevant_wins (config : config.Config)
    (fs : list fetchers.NewsFetcher) :
  fetchers.collect_from config fs
  = reference.first_seen_wins (reference.relevant (reference.fetched config fs))
  /\ NoDup (map models.id (fetchers.collect_from config fs))
  /\ (forall l1 a l2,
        reference.fetched config fs = l1 ++ a :: l2 ->
        fetchers._is_relevant a = true ->
        (forall b, b ∈ l1 -> fetchers._is_relevant b = true ->
                   models.id b <> models.id a) ->
        a ∈ fetchers.collect_from config fs
        /\ forall b, b ∈ fetchers.collect_from config fs ->
                     models.id b = models.id a -> b = a).
Proof.
  rewrite collect_from_first_seen_wins. split; [reflexivity|].
  split; [apply first_seen_wins_from_NoDup|].
  intros l1 a l2 Hbatch Hrel Hfirst.
  assert (Hin : a ∈ reference.first_seen_wins
                      (reference.relevant (reference.fetched config fs))).
  { rewrite Hbatch. unfold reference.relevant. rewrite filter_app, filter_cons.
    rewrite decide_True by assumption.
    apply first_seen_wins_from_keeps; [set_solver|].
    intros b Hb. apply list_elem_of_filter in Hb as [Hb1 Hb2]. now apply Hfirst. }
  split; [exact Hin|].
  intros b Hb Hid.
  eapply NoDup_map_eq; eauto. apply first_seen_wins_from_NoDup.
Qed.

Lemma collect_first_relevant_wins_witness :
  reference.fetched sample.cfg [sample.canned [sample.listed_first; sample.listed_second]]
  = [sample.listed_first] ++ sample.listed_second :: []
  /\ sample.listed_second
     ∈ fetchers.collect_from sample.cfg
         [sample.canned [sample.listed_first; sample.listed_second]].
Proof.
  split; [reflexivity|].
  apply (collect_first_relevant_wins sample.cfg
           [sample.canned [sample.listed_first; sample.listed_second]])
    with (l1 := [sample.listed_first]) (l2 := []).
  - reflexivity.
  - reflexivity.
  - intros b Hb Hrel. apply list_elem_of_singleton in Hb. subst b.
    discriminate Hrel.
Defined.

(** C6 fails as stated: of two items that share an identity, the later one
    is in the output when the earlier one is not relevant. *)
Lemma collect_keeps_later_duplicate :
  models.id sample.listed_first = models.id sample.listed_second
  /\ reference.fetched sample.cfg
       [sample.canned [sample.listed_first; sample.listed_second]]
     = [sample.listed_first; sample.listed_second]
  /\ fetchers.collect_from sample.cfg
       [sample.canned [sample.listed_first; sample.listed_second]]
     = [sample.listed_second].
Proof. repeat split; vm_compute; reflexivity. Qed.

(** *** The relevance filter *)

Lemma prefix_empty (s : string) : String.prefix "" s = true.
Proof. now destruct s. Qed.

Lemma prefix_skip_space (k a b : string) :
  reference.no_space k ->
  String.prefix k (a +:+ " " +:+ b) = true -> String.prefix k (a +:+ b) = true.
Proof.
  revert a. induction k as [|d k IH]; intros a Hk;
    [intros _; apply prefix_empty|].
  assert (Hd : d <> " "%char) by (apply Hk; simpl; now left).
  assert (Hk' : reference.no_space k) by (intros c Hc; apply Hk; simpl; now right).
  destruct a as [|c a]; simpl.
  - destruct (ascii_dec d " "); [contradiction | discriminate].
  - destruct (ascii_dec d c); [now apply IH | discriminate].
Qed.

Lemma contains_skip_space (k a b : string) :
  reference.no_space k ->
  Str.contains k (a +:+ " " +:+ b) = true -> Str.contains k (a +:+ b) = true.
Proof.
  intros Hk. induction a as [|c a IH].
  - change ("" +:+ " " +:+ b) with (String " " b). change ("" +:+ b) with b.
    cbn [Str.contains]. intros H. apply orb_true_iff in H as [H | H].
    + destruct k as [|d k].
      * destruct b; reflexivity.
      * exfalso. assert (Hd : d <> " "%char) by (apply Hk; simpl; now left).
        simpl in H. destruct (ascii_dec d " "); [contradiction | discriminate].
    + exact H.
  - change (String c a +:+ " " +:+ b) with (String c (a +:+ " " +:+ b)).
    change (String c a +:+ b) with (String c (a +:+ b)).
    cbn [Str.contains]. intros H. apply orb_true_iff in H as [H | H].
    + apply orb_true_iff. left.
      apply (prefix_skip_space k (String c a) b Hk H).
    + apply orb_true_iff. right. now apply IH.
Qed.

Lemma lower_app (a b : string) :
  Str.lower (a +:+ b) = Str.lower a +:+ Str.lower b.
Proof. induction a as [|c a IH]; simpl; [reflexivity | now rewrite IH]. Qed.

Lemma keywords_no_space (k : string) : k ∈ fetchers.keywords -> reference.no_space k.
Proof.
  intros Hk c Hc. unfold fetchers.keywords in Hk.
  repeat (apply elem_of_cons in Hk as [-> | Hk]);
    [| |inversion Hk];
    simpl in Hc; repeat (apply elem_of_cons in Hc as [-> | Hc]);
    try discriminate; inversion Hc.
Qed.

Lemma is_relevant_keyword (a : models.Article) :
  fetchers._is_relevant a = true <->
  exists keyword,
    keyword ∈ ["paypal"; "pypl"]
    /\ Str.contains keyword
         (Str.lower (models.title a +:+ " " +:+ default "" (models.summary a)))
       = true.
Proof.
  unfold fetchers._is_relevant. rewrite existsb_exists. unfold fetchers.keywords.
  split; intros (k & Hk & H); exists k; split; auto; now apply list_elem_of_In.
Qed.

(** ** digest.py *)

(** *** The sort *)

Lemma uniform_subset (l l' : list models.Article) :
  (forall a, a ∈ l' -> a ∈ l) -> reference.uniform l -> reference.uniform l'.
Proof. intros Hsub Hl a b Ha Hb. apply Hl; auto. Qed.

Lemma datetime_lt_returns (a b : datetime) (r : bool) :
  datetime_lt a b = Ok r ->
  tz_aware a = tz_aware b /\ r = (ticks a <? ticks b)%N.
Proof.
  unfold datetime_lt. destruct (Bool.eqb _ _) eqn:E; [|discriminate].
  intros [= <-]. split; [now apply Bool.eqb_prop | reflexivity].
Qed.

Lemma datetime_lt_uniform (a b : datetime) :
  tz_aware a = tz_aware b -> datetime_lt a b = Ok (ticks a <? ticks b)%N.
Proof. intros H. unfold datetime_lt. rewrite H, Bool.eqb_reflx. reflexivity. Qed.

Lemma insert_sorted_perm (art : models.Article) (sorted r : list models.Article) :
  digest.insert_sorted art sorted = Ok r -> r ≡ₚ art :: sorted.
Proof.
  revert r. induction sorted as [|other rest IH]; intros r; simpl.
  - intros [= <-]. reflexivity.
  - destruct (datetime_lt _ _) as [[|]|]; simpl; try discriminate.
    + intros [= <-]. reflexivity.
    + destruct (digest.insert_sorted art rest) as [rest'|]; simpl; [|discriminate].
      intros [= <-]. rewrite (IH rest' eq_refl). apply Permutation_swap.
Qed.

Lemma insert_sorted_uniform (art : models.Article) (sorted r : list models.Article) :
  reference.uniform sorted ->
  digest.insert_sorted art sorted = Ok r ->
  reference.uniform (art :: sorted).
Proof.
  destruct sorted as [|other rest]; simpl; intros Hsorted Hr.
  - intros a b Ha Hb. apply list_elem_of_singleton in Ha, Hb. now subst.
  - destruct (datetime_lt _ _) as [smaller|] eqn:E; [|discriminate].
    apply datetime_lt_returns in E as [E _].
    assert (Hall : forall a, a ∈ art :: other :: rest ->
              tz_aware (digest.sort_key a) = tz_aware (digest.sort_key other)).
    { intros a Ha. apply elem_of_cons in Ha as [-> | Ha]; [now symmetry|].
      apply Hsorted; [assumption | now left]. }
    intros a b Ha Hb. now rewrite (Hall a Ha), (Hall b Hb).
Qed.

Lemma insert_sorted_returns (art : models.Article) (sorted : list models.Article) :
  reference.uniform (art :: sorted) ->
  exists r, digest.insert_sorted art sorted = Ok r.
Proof.
  induction sorted as [|other rest IH]; simpl; intros Hu; [eauto|].
  rewrite datetime_lt_uniform by (apply Hu; [right; left | left]).
  simpl. destruct (_ <? _)%N; [eauto|].
  destruct IH as [r Hr].
  - eapply uniform_subset; [|exact Hu].
    intros a Ha. apply elem_of_cons in Ha as [-> | Ha]; [left | right; now right].
  - rewrite Hr. simpl. eauto.
Qed.

Lemma insert_sorted_descending (art : models.Article)
    (sorted r : list models.Article) :
  reference.descending sorted ->
  digest.insert_sorted art sorted = Ok r ->
  reference.descending r.
Proof.
  unfold reference.descending.
  revert r. induction sorted as [|other rest IH]; intros r Hs; simpl.
  - intros [= <-]. repeat constructor.
  - destruct (datetime_lt _ _) as [smaller|] eqn:E; simpl; [|discriminate].
    apply datetime_lt_returns in E as [_ ->].
    apply StronglySorted_inv in Hs as [Hrest Hother].
    destruct (_ <? _)%N eqn:Hlt.
    + intros [= <-]. apply N.ltb_lt in Hlt.
      constructor; [now constructor|].
      constructor; [lia|].
      eapply Forall_impl; [exact Hother|]. simpl. intros; lia.
    + destruct (digest.insert_sorted art rest) as [rest'|] eqn:Hins; simpl;
        [|discriminate].
      intros [= <-]. apply N.ltb_ge in Hlt.
      constructor; [now apply IH|].
      apply insert_sorted_perm in Hins. rewrite Hins.
      constructor; assumption.
Qed.

Lemma sort_loop (l acc r : list models.Article) :
  reference.uniform acc -> reference.descending acc ->
  fetchers.for_each (fun sorted art => digest.insert_sorted art sorted) acc l = Ok r ->
  r ≡ₚ acc ++ l /\ reference.uniform (acc ++ l) /\ reference.descending r.
Proof.
  revert acc. induction l as [|art l IH]; intros acc Hu Hd; simpl.
  - intros [= <-]. rewrite app_nil_r. auto.
  - destruct (digest.insert_sorted art acc) as [acc'|] eqn:Hins; simpl;
      [|discriminate].
    intros Hr.
    pose proof (insert_sorted_perm _ _ _ Hins) as Hp.
    pose proof (insert_sorted_uniform _ _ _ Hu Hins) as Hu'.
    destruct (IH acc') as (Hp' & Hu'' & Hd').
    + eapply uniform_subset; [|exact Hu']. intros a Ha. now rewrite <- Hp.
    + eapply insert_sorted_descending; eauto.
    + exact Hr.
    + split; [|split; [|exact Hd']].
      * rewrite Hp', Hp. simpl. apply Permutation_middle.
      * eapply uniform_subset; [|exact Hu''].
        intros a Ha. rewrite Hp. rewrite <- Permutation_middle in Ha. exact Ha.
Qed.

Lemma sort_loop_returns (l acc : list models.Article) :
  reference.uniform (acc ++ l) ->
  exists r,
    fetchers.for_each (fun sorted art => digest.insert_sorted art sorted) acc l = Ok r.
Proof.
  revert acc. induction l as [|art l IH]; intros acc Hu; simpl; [eauto|].
  destruct (insert_sorted_returns art acc) as [acc' Hins].
  - eapply uniform_subset; [|exact Hu].
    intros a Ha. rewrite <- Permutation_middle.
    apply elem_of_cons in Ha as [-> | Ha];
      [left | right; apply elem_of_app; now left].
  - rewrite Hins. simpl. apply IH.
    eapply uniform_subset; [|exact Hu].
    intros a Ha. apply insert_sorted_perm in Hins.
    rewrite <- Permutation_middle.
    apply elem_of_app in Ha as [Ha | Ha].
    + rewrite Hins in Ha. apply elem_of_cons in Ha as [-> | Ha];
        [left | right; apply elem_of_app; now left].
    + right. apply elem_of_app. now right.
Qed.

(** When the sort returns, the list held keys of one kind, and the result
    is a rearrangement of it with later dates first; an article without a
    date counts as dated [datetime.min]. *)
Lemma sort_reverse_returns (l r : list models.Article) :
  digest.sort_reverse l = Ok r ->
  r ≡ₚ l /\ reference.uniform l /\ reference.descending r.
Proof.
  intros H. apply sort_loop in H; [exact H | |constructor].
  intros a b Ha. inversion Ha.
Qed.

(** The sort returns exactly on the lists whose keys are of one kind. *)
Lemma sort_reverse_uniform (l : list models.Article) :
  reference.uniform l <-> exists r, digest.sort_reverse l = Ok r.
Proof.
  split.
  - intros H. now apply sort_loop_returns.
  - intros [r H]. now apply sort_reverse_returns in H.
Qed.

(** *** The loops of [build_digest] *)

Lemma fresh_loop (st : state.StateStore) (d : gmap string jvalue)
    (articles acc : list models.Article) :
  state._data st = JObject d ->
  fetchers.for_each
    (fun acc article =>
       let! seen := state.seen_ids st in
       Ok (if bool_decide (models.id article ∈ seen) then acc
           else acc ++ [article]))
    acc articles
  = Ok (acc ++ filter (fun a => models.id a ∉ dom d) articles).
Proof.
  intros Hd. revert acc. induction articles as [|a articles IH]; intros acc; simpl.
  - now rewrite app_nil_r.
  - unfold state.seen_ids at 1. rewrite Hd. simpl. rewrite filter_cons.
    case_bool_decide as Hin.
    + rewrite IH. now rewrite decide_False by auto.
    + rewrite IH. rewrite decide_True by assumption.
      now rewrite <- app_assoc.
Qed.

Lemma fresh_object (st : state.StateStore) (d : gmap string jvalue)
    (articles : list models.Article) :
  state._data st = JObject d ->
  digest.fresh st articles = Ok (filter (fun a => models.id a ∉ dom d) articles).
Proof. intros Hd. unfold digest.fresh. now rewrite (fresh_loop st d). Qed.

Lemma fresh_returns (st : state.StateStore) (articles f : list models.Article) :
  digest.fresh st articles = Ok f ->
  articles = [] \/ exists d, state._data st = JObject d.
Proof.
  destruct articles as [|a articles]; [now left|].
  unfold digest.fresh. simpl. unfold state.seen_ids at 1.
  destruct (state._data st); simpl; try discriminate. eauto.
Qed.

Lemma digest_article_step (lsa : string -> nat -> list string) (net : network)
    (a : models.Article) (items_ : list digest.DigestItem) (ids : list string) :
  digest.digest_article lsa net (items_, ids) a
  = if decide (reference.has_text net a)
    then (items_ ++ [reference.entry lsa net a], ids ++ [models.id a])
    else (items_, ids).
Proof.
  unfold digest.digest_article, reference.entry, reference.rendered.
  destruct (decide (reference.has_text net a)) as [Ha | Ha];
    unfold reference.has_text in Ha;
    destruct (content.best_text (page_answer net) a) as [text enriched];
    simpl in Ha |- *.
  - now rewrite Ha.
  - apply not_true_is_false in Ha. now rewrite Ha.
Qed.

Lemma digest_loop (lsa : string -> nat -> list string) (net : network)
    (l : list models.Article) (items_ : list digest.DigestItem) (ids : list string) :
  foldl (digest.digest_article lsa net) (items_, ids) l
  = (items_ ++ map (reference.entry lsa net) (filter (reference.has_text net) l),
     ids ++ map models.id (filter (reference.has_text net) l)).
Proof.
  revert items_ ids. induction l as [|a l IH]; intros items_ ids.
  - simpl. now rewrite !app_nil_r.
  - cbn [foldl]. rewrite digest_article_step, filter_cons.
    destruct (decide (reference.has_text net a)).
    + rewrite IH. simpl. now rewrite <- !app_assoc.
    + apply IH.
Qed.

Lemma mark_loop (fresh_articles : list models.Article) (ids : list string)
    (st : state.StateStore) :
  ids = [] \/ (exists d, state._data st = JObject d) ->
  fetchers.for_each
    (fun st article_id =>
       state.mark_seen st article_id
         match digest.matching fresh_articles article_id with
         | Some a => models.title a
         | None => ""
         end)
    st ids
  = Ok {| state.path_ := state.path_ st;
          state._data := reference.data_after fresh_articles (state._data st) ids |}.
Proof.
  revert st. induction ids as [|i ids IH]; intros st H; simpl.
  - destruct st as [p j]. simpl. f_equal. f_equal. now destruct j.
  - destruct H as [H | [d Hd]]; [discriminate|].
    unfold state.mark_seen at 1. rewrite Hd. simpl.
    rewrite IH by (right; simpl; eauto). reflexivity.
Qed.

Lemma dom_marked (fresh_articles : list models.Article)
    (d : gmap string jvalue) (ids : list string) :
  dom (reference.marked fresh_articles d ids) = dom d ∪ list_to_set ids.
Proof.
  unfold reference.marked. revert d.
  induction ids as [|i ids IH]; intros d; simpl.
  - set_solver.
  - rewrite IH, dom_insert_L. set_solver.
Qed.

Lemma init_shape (fs : filesystem) (p : path) (st : state.StateStore)
    (log : list log_record) :
  state.__init__ fs p = Ok (st, log) ->
  state.path_ st = p
  /\ (fs !! p = Some (Readable (Json (state._data st)))
      \/ state._data st = JObject ∅).
Proof.
  unfold state.__init__, state._load, exists_, read_text.
  cbn [state.path_ state._data].
  destruct (fs !! p) as [[k | [j | s | k]]|] eqn:E.
  - rewrite bool_decide_eq_true_2 by eauto. simpl.
    destruct k; simpl; discriminate.
  - rewrite bool_decide_eq_true_2 by eauto. simpl. intros [= <- <-]. auto.
  - rewrite bool_decide_eq_true_2 by eauto. simpl. intros [= <- <-]. auto.
  - rewrite bool_decide_eq_true_2 by eauto. simpl.
    destruct k; simpl; discriminate.
  - rewrite bool_decide_eq_false_2 by (intros [? ?]; discriminate).
    simpl. intros [= <- <-]. auto.
Qed.

Lemma fresh_forward (st : state.StateStore) (articles : list models.Article) :
  articles = [] \/ (exists d, state._data st = JObject d) ->
  digest.fresh st articles
  = Ok (filter (fun a => models.id a ∉ reference.ids_of (state._data st)) articles).
Proof.
  intros [-> | [d Hd]]; [reflexivity|].
  rewrite (fresh_object st d) by assumption. now rewrite Hd.
Qed.

Lemma recorded_init (fs : filesystem) (config : config.Config)
    (st : state.StateStore) (log : list log_record) :
  state.__init__ fs (config.state_file config) = Ok (st, log) ->
  reference.recorded fs config = reference.ids_of (state._data st).
Proof.
  intros H. unfold reference.recorded. rewrite H. unfold state.seen_ids.
  now destruct (state._data st).
Qed.

Lemma ids_of_data_after (fresh_articles : list models.Article) (j : json)
    (ids : list string) :
  ids = [] \/ (exists d, j = JObject d) ->
  reference.ids_of (reference.data_after fresh_articles j ids)
  = reference.ids_of j ∪ list_to_set ids.
Proof.
  intros [-> | [d ->]]; simpl.
  - destruct j; simpl; set_solver.
  - apply dom_marked.
Qed.

Lemma recorded_written (fs : filesystem) (config : config.Config) (j : json) :
  reference.recorded
    (<[config.state_file config := Readable (Json j)]> fs) config
  = reference.ids_of j.
Proof.
  unfold reference.recorded.
  rewrite (StateStore_json_loaded _ _ j) by apply lookup_insert_eq.
  unfold state.seen_ids. simpl. now destruct j.
Qed.

Section build_digest_properties.

Variable lsa : string -> nat -> list string.
Variable sha256_hex : string -> string.
Variable dateutil_parse : string -> option datetime.
Variable html_text : string -> string.
Variable strftime : datetime -> string -> string.

Local Abbreviation aggregated net config :=
  (fetchers.collect_articles sha256_hex dateutil_parse html_text net config None).
Local Abbreviation build net fs config :=
  (digest.build_digest lsa sha256_hex dateutil_parse html_text net fs config).

(** What [build_digest] returns once the store is loaded and the fresh
    articles are sorted. *)
Lemma build_digest_forward (net : network) (fs : filesystem)
    (config : config.Config) (st0 : state.StateStore) (log : list log_record)
    (sorted : list models.Article) :
  state.__init__ fs (config.state_file config) = Ok (st0, log) ->
  (aggregated net config = [] \/ exists d, state._data st0 = JObject d) ->
  digest.sort_reverse
    (filter (fun a => models.id a ∉ reference.ids_of (state._data st0))
       (aggregated net config)) = Ok sorted ->
  build net fs config
  = Ok ({| digest.digest :=
             {| digest.created_at := config.digest_date config;
                digest.items :=
                  map (reference.entry lsa net)
                    (filter (reference.has_text net) sorted) |};
           digest.new_article_ids :=
             map models.id (filter (reference.has_text net) sorted) |},
        <[config.state_file config :=
            Readable
              (Json
                 (reference.data_after
                    (map (content.enrich_article_content (page_answer net)) sorted)
                    (state._data st0)
                    (map models.id (filter (reference.has_text net) sorted))))]>
          fs).
Proof.
  intros Hinit Hcond Hsort. unfold digest.build_digest.
  rewrite Hinit. cbn [rbind].
  rewrite (fresh_forward st0 _ Hcond). cbn [rbind].
  rewrite Hsort. cbn [rbind].
  rewrite digest_loop. cbn [app].
  rewrite mark_loop.
  - cbn [rbind]. unfold state.save, write_text, json_dumps.
    cbn [state.path_ state._data].
    destruct (init_shape _ _ _ _ Hinit) as [-> _]. reflexivity.
  - destruct Hcond as [Hnil | Hobj]; [left | now right].
    rewrite Hnil in Hsort. cbn in Hsort. injection Hsort as <-. reflexivity.
Qed.

Lemma build_digest_inv (net : network) (fs : filesystem)
    (config : config.Config) (res : digest.DigestResult) (fs' : filesystem) :
  build net fs config = Ok (res, fs') ->
  exists st0 log sorted,
    state.__init__ fs (config.state_file config) = Ok (st0, log)
    /\ (aggregated net config = [] \/ exists d, state._data st0 = JObject d)
    /\ digest.sort_reverse
         (filter (fun a => models.id a ∉ reference.ids_of (state._data st0))
            (aggregated net config)) = Ok sorted.
Proof.
  unfold digest.build_digest.
  destruct (state.__init__ fs (config.state_file config)) as [[st0 log]|] eqn:Hinit;
    cbn [rbind]; [|discriminate].
  destruct (digest.fresh st0 (aggregated net config)) as [f|] eqn:Hfresh;
    cbn [rbind]; [|discriminate].
  pose proof (fresh_returns _ _ _ Hfresh) as Hcond.
  rewrite (fresh_forward st0 _ Hcond) in Hfresh. injection Hfresh as <-.
  destruct (digest.sort_reverse _) as [sorted|] eqn:Hsort; cbn [rbind];
    [|discriminate].
  intros _. exists st0, log, sorted. auto.
Qed.

(** A run that returns: the fresh articles were sorted, the report and the
    new ids come from those of them that have text, in that order, and the
    state file then records the ids of before and the new ones. *)
Lemma build_digest_spec (net : network) (fs : filesystem)
    (config : config.Config) (res : digest.DigestResult) (fs' : filesystem) :
  build net fs config = Ok (res, fs') ->
  exists sorted j,
    digest.sort_reverse
      (filter (fun a => models.id a ∉ reference.recorded fs config)
         (aggregated net config)) = Ok sorted
    /\ digest.items (digest.digest res)
       = map (reference.entry lsa net) (filter (reference.has_text net) sorted)
    /\ digest.new_article_ids res
       = map models.id (filter (reference.has_text net) sorted)
    /\ fs' = <[config.state_file config := Readable (Json j)]> fs
    /\ reference.recorded fs' config
       = reference.recorded fs config ∪ list_to_set (digest.new_article_ids res).
Proof.
  intros H. destruct (build_digest_inv _ _ _ _ _ H) as (st0 & log & sorted & Hi & Hc & Hs).
  rewrite (build_digest_forward _ _ _ _ _ _ Hi Hc Hs) in H.
  injection H as <- <-. cbn [digest.items digest.digest digest.new_article_ids].
  rewrite (recorded_init _ _ _ _ Hi).
  eexists sorted, _. split; [exact Hs|]. split; [reflexivity|].
  split; [reflexivity|]. split; [reflexivity|].
  rewrite recorded_written. apply ids_of_data_after.
  destruct Hc as [Hnil | Hobj]; [left | now right].
  rewrite Hnil in Hs. cbn in Hs. injection Hs as <-. reflexivity.
Qed.

End build_digest_properties.

(** *** The relevance filter and the history *)

Lemma collect_from_relevant (config : config.Config)
    (fs : list fetchers.NewsFetcher) (a : models.Article) :
  a ∈ fetchers.collect_from config fs -> fetchers._is_relevant a = true.
Proof.
  rewrite collect_from_first_seen_wins. intros H.
  apply first_seen_wins_from_elem in H as [H _].
  now apply list_elem_of_filter in H as [H _].
Qed.

Lemma first_seen_wins_nil (l : list models.Article) :
  reference.first_seen_wins l = [] <-> l = [].
Proof.
  split; [|now intros ->].
  destruct l as [|a l]; [reflexivity|].
  unfold reference.first_seen_wins. simpl.
  rewrite bool_decide_eq_false_2 by set_solver. discriminate.
Qed.

(** Something is aggregated exactly when some fetched item is relevant. *)
Lemma collect_from_nonempty (config : config.Config)
    (fs : list fetchers.NewsFetcher) :
  fetchers.collect_from config fs <> [] <->
  exists a, a ∈ reference.fetched config fs /\ fetchers._is_relevant a = true.
Proof.
  rewrite collect_from_first_seen_wins, first_seen_wins_nil.
  unfold reference.relevant. split.
  - intros H. destruct (filter _ _) as [|a l] eqn:E; [contradiction|].
    exists a. assert (Ha : a ∈ a :: l) by left. rewrite <- E in Ha.
    apply list_elem_of_filter in Ha as [Hrel Ha]. auto.
  - intros (a & Ha & Hrel) E.
    assert (Hin : a ∈ filter (fun a => fetchers._is_relevant a = true)
                        (reference.fetched config fs))
      by (apply list_elem_of_filter; auto).
    rewrite E in Hin. inversion Hin.
Qed.

Lemma fresh_not_object (st : state.StateStore) (a : models.Article)
    (articles : list models.Article) :
  (forall d, state._data st <> JObject d) ->
  digest.fresh st (a :: articles) = Raise AttributeError.
Proof.
  intros H. unfold digest.fresh. simpl. unfold state.seen_ids at 1.
  destruct (state._data st) as [d| |]; [now contradiction (H d) | |];
    reflexivity.
Qed.

(** C7: an item of the aggregated output has a subject keyword, "paypal" or
    "pypl", in the lower-cased text made of its title and its summary hint
    (joined by the space the code puts between them, and also joined
    directly); every entry of a report is made from an article of the
    aggregated output; and the items that fail the filter are dropped
    before the history is consulted: on a state file whose document is no
    object, where reading the seen ids raises [AttributeError], a run
    raises that error exactly when some fetched item is relevant, however
    many items were fetched. *)
Theorem relevance_before_history
    (lsa : string -> nat -> list string)
    (sha256_hex : string -> string)
    (dateutil_parse : string -> option datetime)
    (html_text : string -> string)
    (net : network) (config : config.Config) :
  (forall fetchers_ a,
     a ∈ fetchers.collect_articles sha256_hex dateutil_parse html_text net
           config fetchers_ ->
     exists keyword,
       keyword ∈ ["paypal"; "pypl"]
       /\ Str.contains keyword
            (Str.lower
               (models.title a +:+ " " +:+ default "" (models.summary a))) = true
       /\ Str.contains keyword
            (Str.lower (models.title a +:+ default "" (models.summary a))) = true)
  /\ (forall fs res fs' item,
        digest.build_digest lsa sha256_hex dateutil_parse html_text net fs config
        = Ok (res, fs') ->
        item ∈ digest.items (digest.digest res) ->
        exists a,
          a ∈ fetchers.collect_articles sha256_hex dateutil_parse html_text net
                config None
          /\ fetchers._is_relevant a = true
          /\ (models.id a ∉ reference.recorded fs config)
          /\ item = reference.entry lsa net a)
  /\ (forall fs j,
        fs !! config.state_file config = Some (Readable (Json j)) ->
        (forall d, j <> JObject d) ->
        (digest.build_digest lsa sha256_hex dateutil_parse html_text net fs config
         = Raise AttributeError
         <->
         exists a,
           a ∈ reference.fetched config
                 (fetchers.default_fetchers sha256_hex dateutil_parse html_text
                    net)
           /\ fetchers._is_relevant a = true)).
Proof.
  split; [|split].
  - intros fetchers_ a Ha. unfold fetchers.collect_articles in Ha.
    apply collect_from_relevant in Ha.
    apply is_relevant_keyword in Ha as (k & Hk & H).
    exists k. split; [exact Hk|]. split; [exact H|].
    rewrite !lower_app in H. rewrite lower_app.
    apply contains_skip_space; [|exact H].
    now apply keywords_no_space.
  - intros fs res fs' item Hrun Hitem.
    destruct (build_digest_spec _ _ _ _ _ _ _ _ _ Hrun)
      as (sorted & j & Hsort & Hitems & _).
    rewrite Hitems in Hitem.
    apply list_elem_of_In, in_map_iff in Hitem as (a & <- & Ha).
    apply list_elem_of_In, list_elem_of_filter in Ha as [_ Ha].
    apply sort_reverse_returns in Hsort as (Hperm & _).
    rewrite Hperm in Ha. apply list_elem_of_filter in Ha as [Hnew Ha].
    exists a. split; [exact Ha|]. split; [|split; [exact Hnew | reflexivity]].
    unfold fetchers.collect_articles in Ha. now apply collect_from_relevant in Ha.
  - intros fs j Hfile Hj.
    pose proof (StateStore_json_loaded _ _ _ Hfile) as Hinit.
    rewrite <- collect_from_nonempty.
    change (fetchers.collect_from config
              (fetchers.default_fetchers sha256_hex dateutil_parse html_text net))
      with (fetchers.collect_articles sha256_hex dateutil_parse html_text net
              config None).
    destruct (fetchers.collect_articles sha256_hex dateutil_parse html_text net
                config None) as [|a articles] eqn:Hagg.
    + split; [|now intros H].
      rewrite (build_digest_forward lsa _ _ _ net fs config _ [] [] Hinit).
      * discriminate.
      * left. exact Hagg.
      * now rewrite Hagg.
    + split; [discriminate|]. intros _. unfold digest.build_digest.
      rewrite Hinit. cbn [rbind]. rewrite Hagg.
      now rewrite fresh_not_object.
Qed.

Lemma relevance_before_history_witness :
  (sample.listed_second
     ∈ fetchers.collect_articles sample.sha256_hex sample.dateutil_parse
         sample.html_text sample.offline sample.cfg
         (Some [sample.canned [sample.listed_first; sample.listed_second]])
   /\ exists keyword,
       keyword ∈ ["paypal"; "pypl"]
       /\ Str.contains keyword
            (Str.lower
               (models.title sample.listed_second +:+ " " +:+
                default "" (models.summary sample.listed_second))) = true)
  /\ sample.list_state !! config.state_file sample.cfg
     = Some (Readable (Json (JArray [])))
  /\ digest.build_digest sample.lsa sample.sha256_hex sample.dateutil_parse
       sample.html_text sample.one_card sample.list_state sample.cfg
     = Raise AttributeError
  /\ length
       (reference.fetched sample.cfg
          (fetchers.default_fetchers sample.sha256_hex sample.dateutil_parse
             sample.html_text sample.off_topic_card)) = 1%nat
  /\ digest.build_digest sample.lsa sample.sha256_hex sample.dateutil_parse
       sample.html_text sample.off_topic_card sample.list_state sample.cfg
     <> Raise AttributeError.
Proof.
  assert (H : sample.listed_second
    ∈ fetchers.collect_articles sample.sha256_hex sample.dateutil_parse
        sample.html_text sample.offline sample.cfg
        (Some [sample.canned [sample.listed_first; sample.listed_second]])).
  { vm_compute. left. }
  assert (Hfile : sample.list_state !! config.state_file sample.cfg
                  = Some (Readable (Json (JArray [])))).
  { apply lookup_singleton_eq. }
  split; [|split; [exact Hfile|split; [|split; [reflexivity|]]]].
  - split; [exact H|].
    destruct (relevance_before_history sample.lsa sample.sha256_hex
                sample.dateutil_parse sample.html_text sample.offline sample.cfg)
      as [Hrel _].
    destruct (Hrel _ _ H) as (k & Hk & Hc & _). eauto.
  - destruct (relevance_before_history sample.lsa sample.sha256_hex
                sample.dateutil_parse sample.html_text sample.one_card sample.cfg)
      as (_ & _ & Horder).
    apply (Horder _ _ Hfile); [discriminate|].
    eexists. split; [vm_compute; left | reflexivity].
  - destruct (relevance_before_history sample.lsa sample.sha256_hex
                sample.dateutil_parse sample.html_text sample.off_topic_card
                sample.cfg)
      as (_ & _ & Horder).
    intros Hraise. apply (Horder _ _ Hfile) in Hraise; [|discriminate].
    destruct Hraise as (a & Ha & Hrel). vm_compute in Ha.
    apply list_elem_of_singleton in Ha. subst a. discriminate Hrel.
Defined.

(** The example of the specification: no keyword, not relevant. *)
Example market_closes_higher_excluded :
  fetchers._is_relevant sample.listed_first = false
  /\ fetchers.collect_from sample.cfg [sample.canned [sample.listed_first]] = [].
Proof. split; vm_compute; reflexivity. Qed.

(** *** What a run records *)

Lemma aggregated_NoDup (sha256_hex : string -> string)
    (dateutil_parse : string -> option datetime) (html_text : string -> string)
    (net : network) (config : config.Config)
    (fetchers_ : option (list fetchers.NewsFetcher)) :
  NoDup (map models.id
           (fetchers.collect_articles sha256_hex dateutil_parse html_text net
              config fetchers_)).
Proof.
  unfold fetchers.collect_articles. rewrite collect_from_first_seen_wins.
  apply first_seen_wins_from_NoDup.
Qed.

Lemma elem_of_map_id (l : list models.Article) (i : string) :
  i ∈ map models.id l <-> exists a, a ∈ l /\ models.id a = i.
Proof.
  rewrite list_elem_of_In, in_map_iff. split; intros (a & H1 & H2); exists a.
  - split; [now apply list_elem_of_In | assumption].
  - split; [assumption | now apply list_elem_of_In].
Qed.

(** C9: in a run that returns, the identities newly recorded in the history
    are exactly the identities of the rendered items: the entries and the
    new ids come, in the same order, from the aggregated articles that are
    not yet recorded and have text.  An unrecorded article without text is
    in neither and is still unrecorded after the run. *)
Theorem recorded_ids_are_rendered_ids
    (lsa : string -> nat -> list string)
    (sha256_hex : string -> string)
    (dateutil_parse : string -> option datetime)
    (html_text : string -> string)
    (net : network) (fs : filesystem) (config : config.Config)
    (res : digest.DigestResult) (fs' : filesystem) :
  digest.build_digest lsa sha256_hex dateutil_parse html_text net fs config
  = Ok (res, fs') ->
  reference.recorded fs' config ∖ reference.recorded fs config
  = list_to_set (digest.new_article_ids res)
  /\ (exists shown,
       digest.items (digest.digest res) = map (reference.entry lsa net) shown
       /\ digest.new_article_ids res = map models.id shown
       /\ forall a,
            a ∈ shown <->
            a ∈ fetchers.collect_articles sha256_hex dateutil_parse html_text
                  net config None
            /\ (models.id a ∉ reference.recorded fs config)
            /\ reference.has_text net a)
  /\ (forall a,
        a ∈ fetchers.collect_articles sha256_hex dateutil_parse html_text net
              config None ->
        models.id a ∉ reference.recorded fs config ->
        ~ reference.has_text net a ->
        (models.id a ∉ digest.new_article_ids res)
        /\ (models.id a ∉ reference.recorded fs' config)).
Proof.
  intros Hrun.
  destruct (build_digest_spec _ _ _ _ _ _ _ _ _ Hrun)
    as (sorted & j & Hsort & Hitems & Hids & _ & Hrec).
  apply sort_reverse_returns in Hsort as (Hperm & _).
  assert (Hshown : forall a,
    a ∈ filter (reference.has_text net) sorted <->
    a ∈ fetchers.collect_articles sha256_hex dateutil_parse html_text net
          config None
    /\ (models.id a ∉ reference.recorded fs config)
    /\ reference.has_text net a).
  { intros a. rewrite list_elem_of_filter, Hperm, list_elem_of_filter. tauto. }
  assert (Hnew : forall i, i ∈ digest.new_article_ids res ->
                           i ∉ reference.recorded fs config).
  { intros i Hi. rewrite Hids in Hi.
    apply elem_of_map_id in Hi as (a & Ha & <-). now apply Hshown in Ha. }
  split; [|split].
  - rewrite Hrec. apply set_eq. intros i.
    rewrite elem_of_difference, elem_of_union, elem_of_list_to_set.
    split; [tauto|]. intros Hi. split; [now right | now apply Hnew].
  - exists (filter (reference.has_text net) sorted). auto.
  - intros a Ha Hfresh Htext.
    assert (Hout : models.id a ∉ digest.new_article_ids res).
    { rewrite Hids. intros Hin.
      apply elem_of_map_id in Hin as (b & Hb & Hid).
      apply Hshown in Hb as (Hb & _ & Hbt).
      assert (b = a); [|now subst].
      eapply NoDup_map_eq; eauto. apply aggregated_NoDup. }
    split; [exact Hout|].
    rewrite Hrec, elem_of_union, elem_of_list_to_set. tauto.
Qed.

(** C8, as amended: when a run returns, a second run on the disk it left,
    with the same answers from the sources and from the linked pages,
    returns with no new item and leaves the history as it is; and whatever
    the network answers later, an identity the history records is not
    among the new ids of a run. *)
Theorem second_run_has_no_new_items
    (lsa : string -> nat -> list string)
    (sha256_hex : string -> string)
    (dateutil_parse : string -> option datetime)
    (html_text : string -> string)
    (net : network) (fs : filesystem) (config : config.Config)
    (r1 : digest.DigestResult) (fs1 : filesystem) :
  digest.build_digest lsa sha256_hex dateutil_parse html_text net fs config
  = Ok (r1, fs1) ->
  (exists r2 fs2,
     digest.build_digest lsa sha256_hex dateutil_parse html_text net fs1 config
     = Ok (r2, fs2)
     /\ digest.items (digest.digest r2) = []
     /\ digest.new_article_ids r2 = []
     /\ reference.recorded fs2 config = reference.recorded fs1 config)
  /\ (forall net' r fs' i,
        digest.build_digest lsa sha256_hex dateutil_parse html_text net' fs1 config
        = Ok (r, fs') ->
        i ∈ reference.recorded fs1 config ->
        (i ∉ digest.new_article_ids r) /\ (i ∈ reference.recorded fs' config)).
Proof.
  intros Hrun. split.
  - destruct (build_digest_inv _ _ _ _ _ _ _ _ _ Hrun)
      as (st0 & log & sorted & Hi & Hc & Hs).
    pose proof (build_digest_forward lsa _ _ _ _ _ _ _ _ _ Hi Hc Hs) as Hfw.
    rewrite Hfw in Hrun. injection Hrun as <- <-.
    set (articles := fetchers.collect_articles sha256_hex dateutil_parse
                       html_text net config None) in *.
    set (ids := map models.id (filter (reference.has_text net) sorted)) in *.
    set (j1 := reference.data_after _ (state._data st0) ids) in *.
    set (fs1 := <[config.state_file config := Readable (Json j1)]> fs).
    assert (Hcond : ids = [] \/ exists d, state._data st0 = JObject d).
    { destruct Hc as [Hnil | Hobj]; [left | now right].
      subst ids. rewrite Hnil in Hs. cbn in Hs. injection Hs as <-. reflexivity. }
    assert (Hj1 : reference.ids_of j1 = reference.ids_of (state._data st0) ∪ list_to_set ids)
      by (apply ids_of_data_after; exact Hcond).
    assert (Hinit1 : state.__init__ fs1 (config.state_file config)
                     = Ok ({| state.path_ := config.state_file config;
                              state._data := j1 |}, []))
      by (apply StateStore_json_loaded, lookup_insert_eq).
    assert (Hc1 : articles = [] \/ exists d, j1 = JObject d).
    { destruct Hc as [Hnil | [d Hd]]; [now left | right].
      subst j1. rewrite Hd. simpl. eauto. }
    apply sort_reverse_returns in Hs as Hs1. destruct Hs1 as (Hperm & Hunif & _).
    destruct (proj1 (sort_reverse_uniform
                (filter (fun a => models.id a ∉ reference.ids_of j1) articles)))
      as [sorted2 Hs2].
    { eapply uniform_subset; [|exact Hunif]. intros a Ha.
      apply list_elem_of_filter in Ha as [Ha1 Ha2]. apply list_elem_of_filter.
      split; [|exact Ha2]. rewrite Hj1 in Ha1. set_solver. }
    pose proof (build_digest_forward lsa _ _ _ net fs1 config _ _ _ Hinit1 Hc1 Hs2)
      as Hfw2.
    cbn [state._data] in Hfw2.
    assert (Hnone : filter (reference.has_text net) sorted2 = []).
    { apply sort_reverse_returns in Hs2 as (Hperm2 & _).
      destruct (filter (reference.has_text net) sorted2) as [|a rest] eqn:E;
        [reflexivity | exfalso].
      assert (Ha : a ∈ filter (reference.has_text net) sorted2)
        by (rewrite E; left).
      apply list_elem_of_filter in Ha as [Htext Ha].
      rewrite Hperm2 in Ha. apply list_elem_of_filter in Ha as [Hnew Ha].
      apply Hnew. rewrite Hj1. apply elem_of_union. right.
      apply elem_of_list_to_set. subst ids. apply elem_of_map_id.
      exists a. split; [|reflexivity].
      apply list_elem_of_filter. split; [exact Htext|].
      rewrite Hperm. apply list_elem_of_filter. split; [|exact Ha].
      intros Hin. apply Hnew. rewrite Hj1. set_solver. }
    rewrite Hnone in Hfw2. cbn [map] in Hfw2.
    eexists _, _. split; [exact Hfw2|]. cbn.
    split; [reflexivity|]. split; [reflexivity|].
    subst fs1. rewrite !recorded_written.
    rewrite ids_of_data_after by now left.
    rewrite list_to_set_nil. apply union_empty_r_L.
  - intros net' r fs' i Hrun' Hi.
    destruct (build_digest_spec _ _ _ _ _ _ _ _ _ Hrun')
      as (sorted & j & Hsort & _ & Hids & _ & Hrec).
    split; [|rewrite Hrec; set_solver].
    rewrite Hids. intros Hin. apply elem_of_map_id in Hin as (a & Ha & <-).
    apply list_elem_of_filter in Ha as [_ Ha].
    apply sort_reverse_returns in Hsort as (Hperm & _).
    rewrite Hperm in Ha. apply list_elem_of_filter in Ha as [Hnew _].
    contradiction.
Qed.

Lemma sample_run_returns :
  returns
    (digest.build_digest sample.lsa sample.sha256_hex sample.dateutil_parse
       sample.html_text sample.one_card_page_up ∅ sample.cfg) = true.
Proof. vm_compute. reflexivity. Qed.

Lemma recorded_ids_are_rendered_ids_witness :
  exists res fs',
    digest.build_digest sample.lsa sample.sha256_hex sample.dateutil_parse
      sample.html_text sample.one_card_page_up ∅ sample.cfg = Ok (res, fs')
    /\ reference.recorded fs' sample.cfg ∖ reference.recorded ∅ sample.cfg
       = list_to_set (digest.new_article_ids res).
Proof.
  pose proof sample_run_returns as Hret.
  destruct (digest.build_digest sample.lsa sample.sha256_hex
              sample.dateutil_parse sample.html_text sample.one_card_page_up ∅
              sample.cfg) as [[res fs']|exc] eqn:H; [|discriminate Hret].
  exists res, fs'. split; [reflexivity|].
  apply (recorded_ids_are_rendered_ids _ _ _ _ _ _ _ _ _ H).
Defined.

Lemma second_run_has_no_new_items_witness :
  exists r1 fs1,
    digest.build_digest sample.lsa sample.sha256_hex sample.dateutil_parse
      sample.html_text sample.one_card_page_up ∅ sample.cfg = Ok (r1, fs1)
    /\ exists r2 fs2,
         digest.build_digest sample.lsa sample.sha256_hex sample.dateutil_parse
           sample.html_text sample.one_card_page_up fs1 sample.cfg = Ok (r2, fs2)
         /\ digest.new_article_ids r2 = [].
Proof.
  pose proof sample_run_returns as Hret.
  destruct (digest.build_digest sample.lsa sample.sha256_hex
              sample.dateutil_parse sample.html_text sample.one_card_page_up ∅
              sample.cfg) as [[r1 fs1]|exc] eqn:H; [|discriminate Hret].
  exists r1, fs1. split; [reflexivity|].
  destruct (second_run_has_no_new_items _ _ _ _ _ _ _ _ _ H)
    as [(r2 & fs2 & H2 & _ & Hids & _) _].
  exists r2, fs2. auto.
Defined.

(** C8 fails as stated: the three sources answer the same in both runs; the
    linked page cannot be fetched in the first run, which skips the article
    and records nothing, and is up in the second, which then reports it. *)
Lemma second_run_reports_when_page_recovers :
  fetchers.collect_articles sample.sha256_hex sample.dateutil_parse
    sample.html_text sample.one_card sample.cfg None
  = fetchers.collect_articles sample.sha256_hex sample.dateutil_parse
      sample.html_text sample.one_card_page_up sample.cfg None
  /\ reference.new_ids_of
       (digest.build_digest sample.lsa sample.sha256_hex sample.dateutil_parse
          sample.html_text sample.one_card ∅ sample.cfg) = Some []
  /\ reference.new_ids_of
       (digest.build_digest sample.lsa sample.sha256_hex sample.dateutil_parse
          sample.html_text sample.one_card_page_up
          (reference.disk_of ∅
             (digest.build_digest sample.lsa sample.sha256_hex
                sample.dateutil_parse sample.html_text sample.one_card ∅
                sample.cfg))
          sample.cfg)
     = Some ["pymnts::https://www.pymnts.com/p1"].
Proof. repeat split; vm_compute; reflexivity. Qed.

(** *** The order of the report *)

Lemma insert_sorted_raises (art : models.Article) (sorted : list models.Article)
    (exc : exn) :
  digest.insert_sorted art sorted = Raise exc -> exc = TypeError.
Proof.
  induction sorted as [|other rest IH]; simpl; [discriminate|].
  unfold datetime_lt. destruct (Bool.eqb _ _); simpl.
  - destruct (_ <? _)%N; [discriminate|].
    destruct (digest.insert_sorted art rest); simpl; [discriminate|].
    intros [= <-]. now apply IH.
  - intros [= <-]. reflexivity.
Qed.

Lemma sort_loop_raises (l acc : list models.Article) (exc : exn) :
  fetchers.for_each (fun sorted art => digest.insert_sorted art sorted) acc l
  = Raise exc -> exc = TypeError.
Proof.
  revert acc. induction l as [|art l IH]; intros acc; simpl; [discriminate|].
  destruct (digest.insert_sorted art acc) as [acc'|exc'] eqn:E; simpl.
  - apply IH.
  - intros [= <-]. eapply insert_sorted_raises; eauto.
Qed.

(** The sort raises [TypeError] as soon as the list holds a naive and an
    aware key; an article without a date has the naive key. *)
Lemma sort_reverse_mixed_raises (l : list models.Article) (a b : models.Article) :
  a ∈ l -> b ∈ l ->
  tz_aware (digest.sort_key a) <> tz_aware (digest.sort_key b) ->
  digest.sort_reverse l = Raise TypeError.
Proof.
  intros Ha Hb Hne.
  destruct (digest.sort_reverse l) as [r|exc] eqn:E.
  - apply sort_reverse_returns in E as (_ & Hu & _).
    exfalso. apply Hne. now apply Hu.
  - f_equal. eapply sort_loop_raises. exact E.
Qed.

(** The example of the specification, with naive dates: A, C, B. *)
Example sort_reverse_A_C_B :
  digest.sort_reverse [sample.article_A; sample.article_B; sample.article_C]
  = Ok [sample.article_A; sample.article_C; sample.article_B].
Proof. reflexivity. Qed.

(** C5 fails on the code: NewsAPI returns a dated article, whose date
    carries a time zone, and an undated one; the key of the second is the
    naive [datetime.min], the sort compares the two keys, and [build_digest]
    raises [TypeError] instead of reporting the dated article first and
    the undated one last. *)
Theorem build_digest_undated_among_aware_raises :
  map models.published_at
    (fetchers.collect_articles sample.sha256_hex sample.dateutil_parse
       sample.html_text sample.dated_and_undated sample.cfg None)
  = [Some sample.aware_noon; None]
  /\ digest.build_digest sample.lsa sample.sha256_hex sample.dateutil_parse
       sample.html_text sample.dated_and_undated ∅ sample.cfg
     = Raise TypeError.
Proof. split; vm_compute; reflexivity. Qed.

(** *** Runs without a new item *)

(** A run of [run] whose digest is empty prints nothing and writes no
    report: the disk differs from the one before at most in the state file,
    which records the same identities as before. *)
Lemma run_empty_digest_writes_no_report
    (lsa : string -> nat -> list string)
    (sha256_hex : string -> string)
    (dateutil_parse : string -> option datetime)
    (html_text : string -> string)
    (strftime : datetime -> string -> string)
    (env : config.environ) (net : network) (fs : filesystem)
    (config : config.Config) (res : digest.DigestResult) (fs' : filesystem)
    (printed : list string) :
  digest.run lsa sha256_hex dateutil_parse html_text strftime env net fs
    (Some config) = Ok (res, fs', printed) ->
  digest.items (digest.digest res) = [] ->
  printed = []
  /\ digest.new_article_ids res = []
  /\ (forall p, p <> config.state_file config -> fs' !! p = fs !! p)
  /\ reference.recorded fs' config = reference.recorded fs config.
Proof.
  unfold digest.run.
  destruct (digest.build_digest _ _ _ _ _ _ _) as [[res0 fs0]|exc] eqn:Hrun;
    cbn [rbind]; [|discriminate].
  destruct (digest.items (digest.digest res0)) as [|item rest] eqn:Hitems.
  - intros [= <- <- <-] _.
    destruct (build_digest_spec _ _ _ _ _ _ _ _ _ Hrun)
      as (sorted & j & _ & Hi & Hids & Hfs & Hrec).
    assert (Hnone : digest.new_article_ids res0 = []).
    { rewrite Hids. rewrite Hitems in Hi. symmetry in Hi.
      apply map_eq_nil in Hi. now rewrite Hi. }
    split; [reflexivity|]. split; [exact Hnone|]. split.
    + intros p Hp. rewrite Hfs. now apply lookup_insert_ne.
    + rewrite Hrec, Hnone, list_to_set_nil. apply union_empty_r_L.
  - intros [= <- <- <-] Hempty. rewrite Hitems in Hempty. discriminate.
Qed.

(** C2 fails on the code: with [--output out.md] and a run without any new
    item, [run] writes no report, and [main] then writes the rendered empty
    digest, its heading alone, to [out.md]. *)
Theorem main_writes_output_for_empty_digest :
  reference.new_ids_of
    (digest.build_digest sample.lsa sample.sha256_hex sample.dateutil_parse
       sample.html_text sample.offline ∅
       (config.replace_digest_dir sample.cfg (main_.parent ["out.md"])))
  = Some []
  /\ reference.file_after
       (main_.main sample.lsa sample.sha256_hex sample.dateutil_parse
          sample.html_text sample.strftime sample.output_given sample.env
          sample.offline ∅)
       ["out.md"]
     = Some (Readable
               (Plain
                  (digest.to_markdown sample.strftime
                     {| digest.created_at := config.utcnow sample.env;
                        digest.items := [] |}))).
Proof. split; vm_compute; reflexivity. Qed.

Lemma main_without_output
    (lsa : string -> nat -> list string)
    (sha256_hex : string -> string)
    (dateutil_parse : string -> option datetime)
    (html_text : string -> string)
    (strftime : datetime -> string -> string)
    (args : main_.Namespace) (env : config.environ) (net : network)
    (fs : filesystem) :
  main_.output args = None ->
  main_.main lsa sha256_hex dateutil_parse html_text strftime args env net fs
  = let! (res, fs', printed) :=
      digest.run lsa sha256_hex dateutil_parse html_text strftime env net fs
        (Some (config.load_config env)) in
    Ok (fs', printed).
Proof.
  intros H. unfold main_.main. rewrite H.
  destruct (digest.run _ _ _ _ _ _ _ _ _) as [[[res fs'] printed]|exc];
    reflexivity.
Qed.

(** ** content.py *)

Lemma prefix_of_length_length (n : nat) (s : string) :
  String.length (Str.prefix_of_length n s) <= n.
Proof.
  revert s. induction n as [|n IH]; intros s; simpl; [lia|].
  destruct s as [|c s]; simpl; [lia|]. specialize (IH s). lia.
Qed.

Lemma prefix_of_length_all (n : nat) (s : string) :
  String.length s <= n -> Str.prefix_of_length n s = s.
Proof.
  revert s. induction n as [|n IH]; intros s; destruct s as [|c s]; simpl;
    try reflexivity; try lia.
  intros H. f_equal. apply IH. lia.
Qed.

Lemma prefix_of_length_truthy (n : nat) (s : string) :
  Str.truthy s = true -> Str.truthy (Str.prefix_of_length (S n) s) = true.
Proof. now destruct s. Qed.

(** The text taken from a page is the joined paragraphs cut to 2000
    characters, and it is not empty. *)
Lemma page_text_some (texts : list string) (text : string) :
  content.page_text texts = Some text ->
  text = Str.prefix_of_length 2000
           (Str.join (content.newline +:+ content.newline)
              (filter (fun t => Is_true (Str.truthy t)) texts))
  /\ String.length text <= 2000
  /\ Str.truthy text = true.
Proof.
  unfold content.page_text, content.max_chars.
  set (joined := Str.join _ _).
  destruct (filter _ texts) as [|p rest] eqn:E; [discriminate|].
  assert (Hp : Str.truthy p = true).
  { assert (Hin : p ∈ filter (fun t => Is_true (Str.truthy t)) texts)
      by (rewrite E; left).
    apply list_elem_of_filter in Hin as [Hin _]. now apply Is_true_eq_true. }
  assert (Hj : Str.truthy joined = true) by (now apply truthy_join_cons).
  intros Heq. apply (inj Some) in Heq. rewrite <- Heq. clear Heq.
  destruct (2000 <? String.length joined)%nat eqn:Hlen.
  - split; [reflexivity|]. split; [apply prefix_of_length_length|].
    now apply prefix_of_length_truthy.
  - apply Nat.ltb_ge in Hlen. rewrite prefix_of_length_all by assumption. auto.
Qed.

(** The call on an object leaves in the heap what the function on values
    returns. *)
Lemma enrich_article_content_obj_value (web : string -> http (list string))
    (ref : nat) (m : content.memory) (article : models.Article) :
  content.heap m !! ref = Some article ->
  exists m',
    content.enrich_article_content_obj web ref m = Some (ref, m')
    /\ content.heap m' !! ref = Some (content.enrich_article_content web article)
    /\ forall other, other <> ref ->
         content.heap m' !! other = content.heap m !! other.
Proof.
  intros H. unfold content.enrich_article_content_obj,
    content.enrich_article_content. rewrite H. simpl.
  destruct (truthy_opt (models.content article)); [eauto|].
  destruct (get_ok (web (models.url article))) as [texts|exc]; [|eauto].
  destruct (content.page_text texts) as [text|]; [|eauto].
  eexists. split; [reflexivity|]. simpl. split.
  - apply lookup_insert_eq.
  - intros other Hne. now apply lookup_insert_ne.
Qed.

(** C10: for an article object whose content is empty, when the page is
    fetched and has text, [enrich_article_content] returns the reference it
    was given and the object behind it now has as content the extracted
    text, cut to at most 2000 characters; no other object changes, and
    [best_text] returns that text.  For an object whose content is
    populated, the reference is returned, the heap is as before and no
    request was made. *)
Theorem enrich_article_content_in_place (web : string -> http (list string))
    (ref : nat) (m : content.memory) (article : models.Article) :
  content.heap m !! ref = Some article ->
  (truthy_opt (models.content article) = false ->
   forall texts text,
     get_ok (web (models.url article)) = Ok texts ->
     content.page_text texts = Some text ->
     let m' :=
       {| content.heap :=
            <[ref := models.set_content article text]> (content.heap m);
          content.requested := content.requested m ++ [models.url article] |} in
     content.enrich_article_content_obj web ref m = Some (ref, m')
     /\ content.heap m' !! ref = Some (models.set_content article text)
     /\ (forall other, other <> ref ->
           content.heap m' !! other = content.heap m !! other)
     /\ text = Str.prefix_of_length 2000
                (Str.join (content.newline +:+ content.newline)
                   (filter (fun t => Is_true (Str.truthy t)) texts))
     /\ String.length text <= 2000
     /\ content.best_text_obj web ref m = Some (Some text, m'))
  /\ (truthy_opt (models.content article) = true ->
      content.enrich_article_content_obj web ref m = Some (ref, m)
      /\ content.best_text_obj web ref m = Some (models.content article, m)).
Proof.
  intros H. split.
  - intros Hempty texts text Hget Hpage m'.
    assert (Hcall : content.enrich_article_content_obj web ref m = Some (ref, m')).
    { unfold content.enrich_article_content_obj. rewrite H. simpl.
      rewrite Hempty, Hget, Hpage. reflexivity. }
    destruct (page_text_some _ _ Hpage) as (Htext & Hlen & Htruthy).
    split; [exact Hcall|]. split; [apply lookup_insert_eq|].
    split; [intros other Hne; now apply lookup_insert_ne|].
    split; [exact Htext|]. split; [exact Hlen|].
    unfold content.best_text_obj. rewrite Hcall. simpl.
    rewrite lookup_insert_eq. simpl.
    unfold models.primary_text. simpl. now rewrite Htruthy.
  - intros Hfull.
    assert (Hcall : content.enrich_article_content_obj web ref m = Some (ref, m)).
    { unfold content.enrich_article_content_obj. rewrite H. simpl.
      now rewrite Hfull. }
    split; [exact Hcall|].
    unfold content.best_text_obj. rewrite Hcall. simpl. rewrite H. simpl.
    unfold models.primary_text. now rewrite Hfull.
Qed.

Lemma enrich_article_content_in_place_witness :
  content.heap sample.memory0 !! 0%nat = Some sample.article_B
  /\ content.enrich_article_content_obj
       (page_answer sample.one_card_page_up) 0 sample.memory0
     = Some (0%nat,
             {| content.heap :=
                  <[0%nat := models.set_content sample.article_B
                               "PayPal said on Monday."]>
                    (content.heap sample.memory0);
                content.requested := ["https://example.com/B"] |}).
Proof.
  split; [reflexivity|].
  destruct (enrich_article_content_in_place
              (page_answer sample.one_card_page_up) 0 sample.memory0
              sample.article_B eq_refl) as [Hempty _].
  destruct (Hempty eq_refl ["PayPal said on Monday."] "PayPal said on Monday."
              eq_refl eq_refl) as [Hcall _].
  exact Hcall.
Defined.


(** * Further properties *)

(** ** Strings *)

Lemma lstrip_starts_visible (s : string) :
  shape.starts_visible s = true -> Str.lstrip s = s.
Proof.
  destruct s as [|c s]; simpl; [discriminate|].
  intros H. apply negb_true_iff in H. now rewrite H.
Qed.

Lemma lstrip_shape (s : string) :
  Str.lstrip s = "" \/ shape.starts_visible (Str.lstrip s) = true.
Proof.
  induction s as [|c s IH]; simpl; [now left|].
  destruct (Str.is_space c) eqn:E; [exact IH|]. right. simpl. now rewrite E.
Qed.

Lemma rstrip_starts_visible (s : string) :
  shape.starts_visible s = true -> shape.starts_visible (Str.rstrip s) = true.
Proof.
  destruct s as [|c s]; simpl; [discriminate|]. intros H.
  destruct (Str.rstrip s); simpl.
  - apply negb_true_iff in H. rewrite H. simpl. now rewrite H.
  - exact H.
Qed.

Lemma rstrip_idempotent (s : string) : Str.rstrip (Str.rstrip s) = Str.rstrip s.
Proof.
  induction s as [|c s IH]; simpl; [reflexivity|].
  destruct (Str.rstrip s) as [|d r] eqn:E.
  - destruct (Str.is_space c) eqn:Ec; simpl; [reflexivity | now rewrite Ec].
  - change (Str.rstrip (String c (String d r)))
      with (match Str.rstrip (String d r) with
            | EmptyString =>
                if Str.is_space c then EmptyString else String c EmptyString
            | r' => String c r'
            end).
    now rewrite IH.
Qed.

Lemma rstrip_ends_visible (s : string) :
  shape.ends_visible s = true -> Str.rstrip s = s.
Proof.
  induction s as [|c s IH]; [discriminate|].
  destruct s as [|d s].
  - simpl. intros H. apply negb_true_iff in H. now rewrite H.
  - intros H.
    change (Str.rstrip (String c (String d s)))
      with (match Str.rstrip (String d s) with
            | EmptyString =>
                if Str.is_space c then EmptyString else String c EmptyString
            | r' => String c r'
            end).
    now rewrite IH.
Qed.

(** Stripping twice is stripping once. *)
Lemma strip_idempotent (s : string) : Str.strip (Str.strip s) = Str.strip s.
Proof.
  unfold Str.strip.
  destruct (lstrip_shape s) as [H | H].
  - rewrite H. reflexivity.
  - rewrite (lstrip_starts_visible (Str.rstrip (Str.lstrip s)))
      by now apply rstrip_starts_visible.
    apply rstrip_idempotent.
Qed.

Lemma solid_app (a b : string) :
  shape.solid (a +:+ b) = shape.solid a && shape.solid b.
Proof.
  induction a as [|c a IH]; simpl; [reflexivity|].
  now rewrite IH, andb_assoc.
Qed.

Lemma token_starts_visible (t : string) :
  shape.token t = true -> shape.starts_visible t = true.
Proof.
  unfold shape.token. destruct t as [|c t]; simpl; [discriminate|].
  intros H. now apply andb_true_iff in H as [H _].
Qed.

Lemma token_ends_visible (t : string) :
  shape.token t = true -> shape.ends_visible t = true.
Proof.
  unfold shape.token. induction t as [|c t IH]; simpl; [discriminate|].
  intros H. apply andb_true_iff in H as [Hc Ht].
  destruct t as [|d t]; [exact Hc|]. apply IH. exact Ht.
Qed.

Lemma ends_visible_app (a b : string) :
  shape.ends_visible b = true -> shape.ends_visible (a +:+ b) = true.
Proof.
  intros Hb. induction a as [|c a IH]; simpl; [exact Hb|].
  destruct (a +:+ b) eqn:E; [simpl in IH; discriminate IH | exact IH].
Qed.

(** The tokens of [split] are tokens. *)
Lemma split_from_token (s cur : string) :
  shape.solid cur = true ->
  Forall (fun t => shape.token t = true) (Str.split_from cur s).
Proof.
  revert cur. induction s as [|c s IH]; intros cur Hcur; simpl.
  - destruct (Str.truthy cur) eqn:E; [|constructor].
    constructor; [|constructor]. unfold shape.token. now rewrite E, Hcur.
  - destruct (Str.is_space c) eqn:Ec.
    + destruct (Str.truthy cur) eqn:E; [|now apply IH].
      constructor; [|now apply IH]. unfold shape.token. now rewrite E, Hcur.
    + apply IH. rewrite solid_app, Hcur. simpl. now rewrite Ec.
Qed.

Lemma split_token (s : string) :
  Forall (fun t => shape.token t = true) (Str.split s).
Proof. now apply split_from_token. Qed.

Lemma append_cons (c : ascii) (a b : string) :
  String c a +:+ b = String c (a +:+ b).
Proof. reflexivity. Qed.

Lemma append_nil_r (a : string) : a +:+ "" = a.
Proof.
  induction a as [|x a IH]; [reflexivity|]. rewrite append_cons. now f_equal.
Qed.

Lemma append_assoc (a b c : string) : (a +:+ b) +:+ c = a +:+ (b +:+ c).
Proof.
  induction a as [|x a IH]; [reflexivity|]. rewrite !append_cons. now f_equal.
Qed.

(** Reading a run of solid characters extends the token being read. *)
Lemma split_from_solid (w cur s : string) :
  shape.solid w = true ->
  Str.split_from cur (w +:+ s) = Str.split_from (cur +:+ w) s.
Proof.
  revert cur. induction w as [|c w IH]; intros cur Hw.
  - now rewrite append_nil_r.
  - simpl in Hw. apply andb_true_iff in Hw as [Hc Hw].
    apply negb_true_iff in Hc. rewrite append_cons.
    cbn [Str.split_from]. rewrite Hc. rewrite IH by assumption.
    now rewrite append_assoc.
Qed.

(** Joining tokens with single spaces and splitting again gives the
    tokens back. *)
Lemma split_join_tokens (tokens : list string) :
  Forall (fun t => shape.token t = true) tokens ->
  Str.split (Str.join " " tokens) = tokens.
Proof.
  unfold Str.split. induction tokens as [|p rest IH]; intros H; [reflexivity|].
  apply Forall_cons in H as [Hp Hrest].
  unfold shape.token in Hp. apply andb_true_iff in Hp as [Hp1 Hp2].
  destruct rest as [|q rest].
  - cbn [Str.join]. rewrite <- (append_nil_r p) at 1.
    rewrite split_from_solid by assumption.
    cbn [Str.split_from]. change ("" +:+ p) with p. now rewrite Hp1.
  - change (Str.join " " (p :: q :: rest))
      with (p +:+ String " " (Str.join " " (q :: rest))).
    rewrite split_from_solid by assumption.
    cbn [Str.split_from]. change ("" +:+ p) with p.
    change (Str.is_space " ") with true. cbn iota.
    rewrite Hp1. f_equal. now apply IH.
Qed.

Lemma join_tokens_stripped (tokens : list string) :
  Forall (fun t => shape.token t = true) tokens ->
  Str.strip (Str.join " " tokens) = Str.join " " tokens.
Proof.
  intros H. destruct tokens as [|p rest]; [reflexivity|].
  assert (Hstart : shape.starts_visible (Str.join " " (p :: rest)) = true).
  { apply Forall_cons in H as [Hp _]. apply token_starts_visible in Hp.
    destruct rest; simpl; [exact Hp|]. destruct p; [discriminate | exact Hp]. }
  assert (Hend : shape.ends_visible (Str.join " " (p :: rest)) = true).
  { clear Hstart. revert p H. induction rest as [|q rest IH]; intros p H.
    - simpl. apply token_ends_visible. now apply Forall_cons in H as [Hp _].
    - change (Str.join " " (p :: q :: rest))
        with (p +:+ (" " +:+ Str.join " " (q :: rest))).
      apply ends_visible_app. apply (ends_visible_app " ").
      apply IH. now apply Forall_cons in H as [_ H]. }
  unfold Str.strip. rewrite lstrip_starts_visible by assumption.
  now apply rstrip_ends_visible.
Qed.

Lemma Forall_take {A} (P : A -> Prop) (n : nat) (l : list A) :
  Forall P l -> Forall P (take n l).
Proof.
  revert n. induction l as [|x l IH]; intros n H; destruct n; simpl;
    try constructor.
  - now apply Forall_cons in H as [H _].
  - apply IH. now apply Forall_cons in H as [_ H].
Qed.

(** ** summarizer.py *)

(** A summary has no whitespace around it: the extract is stripped, and
    the fall-back starts and ends with a token. *)
Theorem summarize_text_stripped
    (lsa : string -> nat -> list string) (text : string) (sentence_count : nat) :
  Str.strip (summarizer.summarize_text lsa text sentence_count)
  = summarizer.summarize_text lsa text sentence_count.
Proof.
  unfold summarizer.summarize_text.
  destruct (Str.truthy (Str.strip _)); simpl.
  - apply strip_idempotent.
  - apply join_tokens_stripped, Forall_take, split_token.
Qed.

(** When the extract is blank, the summary splits back into the first 60
    tokens of the text: it has at most 60 words, in the order of the
    text, and nothing else. *)
Theorem summarize_text_fallback_tokens
    (lsa : string -> nat -> list string) (text : string) (sentence_count : nat) :
  Str.strip (Str.join " " (lsa text sentence_count)) = "" ->
  Str.split (summarizer.summarize_text lsa text sentence_count)
  = take 60 (Str.split text)
  /\ length (Str.split (summarizer.summarize_text lsa text sentence_count)) <= 60.
Proof.
  intros H. unfold summarizer.summarize_text. rewrite H. simpl.
  rewrite split_join_tokens by apply Forall_take, split_token.
  split; [reflexivity|]. rewrite length_take. lia.
Qed.

Lemma summarize_text_fallback_tokens_witness :
  Str.strip (Str.join " " (sample.lsa "PayPal  beats	estimates " 3)) = ""
  /\ Str.split (summarizer.summarize_text sample.lsa "PayPal  beats	estimates " 3)
     = take 60 (Str.split "PayPal  beats	estimates ").
Proof.
  split; [reflexivity|].
  apply (summarize_text_fallback_tokens sample.lsa "PayPal  beats	estimates " 3).
  reflexivity.
Defined.

(** ** fetchers.py *)

Lemma lower_char_idempotent (c : ascii) :
  Str.lower_char (Str.lower_char c) = Str.lower_char c.
Proof.
  destruct c as [[] [] [] [] [] [] [] []]; vm_compute; reflexivity.
Qed.

Lemma lower_idempotent (s : string) : Str.lower (Str.lower s) = Str.lower s.
Proof.
  induction s as [|c s IH]; simpl; [reflexivity|].
  now rewrite lower_char_idempotent, IH.
Qed.

(** The relevance test is blind to case: two articles whose titles and
    summary hints agree up to case are both relevant or both not; in
    particular lower-casing an article does not change the verdict. *)
Theorem is_relevant_case_insensitive (a b : models.Article) :
  Str.lower (models.title a) = Str.lower (models.title b) ->
  Str.lower (default "" (models.summary a))
  = Str.lower (default "" (models.summary b)) ->
  fetchers._is_relevant a = fetchers._is_relevant b.
Proof.
  intros Ht Hs. unfold fetchers._is_relevant.
  rewrite !lower_app, Ht, Hs. reflexivity.
Qed.

Lemma is_relevant_case_insensitive_witness :
  fetchers._is_relevant
    (sample.article "PAYPAL SHARES CLOSE HIGHER" "u" (Some "TECH STOCKS RALLY")
       None "i")
  = fetchers._is_relevant sample.listed_second.
Proof.
  apply is_relevant_case_insensitive; reflexivity.
Defined.

(** *** What the fetchers return *)

Lemma join_pair (a b : string) : Str.join "::" [a; b] = a +:+ "::" +:+ b.
Proof. reflexivity. Qed.








Lemma newsapi_item_bad_source (sha256_hex : string -> string)
    (dateutil_parse : string -> option datetime)
    (acc : list models.Article) (item : api_item) :
  if shape.bad_source item
  then fetchers.newsapi_item sha256_hex dateutil_parse acc item
       = Raise AttributeError
  else exists r, fetchers.newsapi_item sha256_hex dateutil_parse acc item = Ok r.
Proof.
  unfold shape.bad_source, fetchers.newsapi_item.
  destruct (truthy_opt (item_title item)); destruct (truthy_opt (item_url item));
    simpl; eauto.
  destruct (item_source item) as [| | |[| |name_]]; simpl; eauto.
Qed.

Lemma newsapi_loop_bad_source (sha256_hex : string -> string)
    (dateutil_parse : string -> option datetime)
    (items : list api_item) (acc : list models.Article) :
  existsb shape.bad_source items = true ->
  fetchers.for_each (fetchers.newsapi_item sha256_hex dateutil_parse) acc items
  = Raise AttributeError.
Proof.
  revert acc. induction items as [|item items IH]; intros acc; simpl;
    [discriminate|].
  pose proof (newsapi_item_bad_source sha256_hex dateutil_parse acc item) as H.
  destruct (shape.bad_source item); simpl.
  - intros _. now rewrite H.
  - intros Hrest. destruct H as [acc' ->]. simpl. now apply IH.
Qed.

(** With a credential and an answer that decodes to a list of items, one
    item that has a title and a url and whose "source" is null, or is no
    object, makes [NewsAPIFetcher.fetch] raise: the call does not return,
    and nothing of the answer is aggregated, also not the articles of the
    well-formed items before that one. *)
Theorem NewsAPIFetcher_fetch_all_or_nothing
    (sha256_hex : string -> string)
    (dateutil_parse : string -> option datetime)
    (net : network) (config : config.Config) (status : Z)
    (items : list api_item) :
  truthy_opt (config.newsapi_key config) = true ->
  newsapi_answer net config
  = Response status (Some (PayloadObject (ArticlesList items))) ->
  ~ (400 <= status < 600)%Z ->
  existsb shape.bad_source items = true ->
  returns (fetchers.NewsAPIFetcher_fetch sha256_hex dateutil_parse net config)
  = false
  /\ fetchers.collect_from config
       [fetchers.NewsAPIFetcher sha256_hex dateutil_parse net] = [].
Proof.
  intros Hkey Hanswer Hstatus Hbad.
  assert (Hfetch : fetchers.NewsAPIFetcher_fetch sha256_hex dateutil_parse net
                     config = Raise AttributeError).
  { unfold fetchers.NewsAPIFetcher_fetch.
    rewrite Hkey, Hanswer, (get_ok_good_status _ _ Hstatus). simpl.
    now apply newsapi_loop_bad_source. }
  split; [now rewrite Hfetch|].
  unfold fetchers.collect_from. simpl. unfold fetchers.collect_fetcher.
  simpl. now rewrite Hfetch.
Qed.

Lemma NewsAPIFetcher_fetch_all_or_nothing_witness :
  existsb shape.bad_source [sample.undated_item; sample.null_source_item] = true
  /\ returns
       (fetchers.NewsAPIFetcher_fetch sample.sha256_hex sample.dateutil_parse
          sample.with_null_source sample.cfg) = false
  /\ fetchers.collect_from sample.cfg
       [fetchers.NewsAPIFetcher sample.sha256_hex sample.dateutil_parse
          sample.with_null_source] = [].
Proof.
  split; [reflexivity|].
  apply (NewsAPIFetcher_fetch_all_or_nothing sample.sha256_hex
           sample.dateutil_parse sample.with_null_source sample.cfg 200
           [sample.undated_item; sample.null_source_item]);
    [reflexivity | reflexivity | lia | reflexivity].
Defined.

(** *** The aggregate *)

Lemma first_seen_wins_from_sublist (earlier : gset string)
    (l : list models.Article) :
  reference.first_seen_wins_from earlier l `sublist_of` l.
Proof.
  revert earlier. induction l as [|a l IH]; intros earlier; simpl.
  - constructor.
  - case_bool_decide; [apply sublist_cons | apply sublist_skip]; apply IH.
Qed.

(** [collect_articles] neither invents nor reorders: its output is the
    batch of the fetchers, in fetcher order and then item order, with
    some items left out. *)
Theorem collect_from_sublist (config : config.Config)
    (fs : list fetchers.NewsFetcher) :
  fetchers.collect_from config fs `sublist_of` reference.fetched config fs.
Proof.
  rewrite collect_from_first_seen_wins.
  etransitivity; [apply first_seen_wins_from_sublist|].
  apply sublist_filter.
Qed.

(** When every source is down, nothing is aggregated. *)
Lemma sources_down_nothing_aggregated
    (sha256_hex : string -> string)
    (dateutil_parse : string -> option datetime)
    (html_text : string -> string)
    (net : network) (config : config.Config) :
  returns (get_ok (newsapi_answer net config)) = false ->
  returns (get_ok (google_answer net)) = false ->
  returns (get_ok (pymnts_answer net)) = false ->
  fetchers.collect_articles sha256_hex dateutil_parse html_text net config None
  = [].
Proof.
  intros H1 H2 H3.
  destruct (not_returns _ H1) as [e1 E1].
  destruct (not_returns _ H2) as [e2 E2].
  destruct (not_returns _ H3) as [e3 E3].
  unfold fetchers.collect_articles, fetchers.collect_from,
    fetchers.default_fetchers.
  cbn [foldl]. unfold fetchers.collect_fetcher. cbn [fetchers.fetch
    fetchers.NewsAPIFetcher fetchers.GoogleNewsFetcher fetchers.PYMNTSFetcher].
  unfold fetchers.NewsAPIFetcher_fetch, fetchers.GoogleNewsFetcher_fetch,
    fetchers.PYMNTSFetcher_fetch.
  rewrite E1, E2, E3.
  rewrite (get_ok_raises _ _ E1), (get_ok_raises _ _ E2), (get_ok_raises _ _ E3).
  destruct (truthy_opt (config.newsapi_key config)); reflexivity.
Qed.

(** ** state.py and the history a run leaves *)

Lemma marked_lookup (fresh_articles : list models.Article)
    (ids : list string) (d : gmap string jvalue) (i : string) :
  reference.marked fresh_articles d ids !! i
  = if decide (i ∈ ids)
    then Some (JStr match digest.matching fresh_articles i with
                    | Some a => models.title a
                    | None => ""
                    end)
    else d !! i.
Proof.
  unfold reference.marked. revert d.
  induction ids as [|j ids IH]; intros d; cbn [foldl].
  - rewrite decide_False by (intros H; inversion H). reflexivity.
  - rewrite IH. destruct (decide (i ∈ ids)) as [Hin | Hin].
    + rewrite decide_True by now right. reflexivity.
    + destruct (decide (i = j)) as [-> | Hne].
      * rewrite decide_True by now left. apply lookup_insert_eq.
      * rewrite decide_False by (intros H; apply elem_of_cons in H as [|];
                                 contradiction).
        now apply lookup_insert_ne.
Qed.

Lemma enrich_keeps_id_title (web : string -> http (list string))
    (a : models.Article) :
  models.id (content.enrich_article_content web a) = models.id a
  /\ models.title (content.enrich_article_content web a) = models.title a.
Proof.
  unfold content.enrich_article_content.
  destruct (truthy_opt (models.content a)); [auto|].
  destruct (get_ok (web (models.url a))) as [texts|]; [|auto].
  destruct (content.page_text texts); auto.
Qed.

Lemma matching_enriched (web : string -> http (list string))
    (l : list models.Article) (a : models.Article) :
  NoDup (map models.id l) -> a ∈ l ->
  digest.matching (map (content.enrich_article_content web) l) (models.id a)
  = Some (content.enrich_article_content web a).
Proof.
  unfold digest.matching.
  induction l as [|b l IH]; intros Hnd Ha; [inversion Ha|].
  simpl. destruct (enrich_keeps_id_title web b) as [Hid _]. rewrite Hid.
  destruct (String.eqb (models.id b) (models.id a)) eqn:E.
  - apply String.eqb_eq in E.
    assert (b = a); [|now subst].
    eapply (NoDup_map_eq models.id (b :: l)); eauto. now left.
  - apply String.eqb_neq in E. simpl in Hnd. apply NoDup_cons in Hnd as [_ Hnd].
    apply elem_of_cons in Ha as [-> | Ha]; [contradiction|]. now apply IH.
Qed.

Lemma NoDup_map_sublist {A B} (f : A -> B) (l k : list A) :
  l `sublist_of` k -> NoDup (map f k) -> NoDup (map f l).
Proof.
  intros Hsub Hk. apply (sublist_NoDup _ _ Hk).
  change (map f l) with (f <$> l). change (map f k) with (f <$> k).
  now apply fmap_sublist.
Qed.

(** A run that starts from a history [d] and returns leaves a state file
    that loads without a warning; the new history contains [d] entry for
    entry, it has the new ids as further keys, and a new id maps to the
    title of its article. *)
Theorem history_grows_by_insertion
    (lsa : string -> nat -> list string)
    (sha256_hex : string -> string)
    (dateutil_parse : string -> option datetime)
    (html_text : string -> string)
    (net : network) (fs : filesystem) (config : config.Config)
    (d : gmap string jvalue) (log : list log_record)
    (res : digest.DigestResult) (fs' : filesystem) :
  state.__init__ fs (config.state_file config)
  = Ok ({| state.path_ := config.state_file config; state._data := JObject d |},
        log) ->
  digest.build_digest lsa sha256_hex dateutil_parse html_text net fs config
  = Ok (res, fs') ->
  exists d',
    state.__init__ fs' (config.state_file config)
    = Ok ({| state.path_ := config.state_file config; state._data := JObject d' |},
          [])
    /\ d ⊆ d'
    /\ dom d' = dom d ∪ list_to_set (digest.new_article_ids res)
    /\ forall a,
         a ∈ fetchers.collect_articles sha256_hex dateutil_parse html_text net
               config None ->
         models.id a ∈ digest.new_article_ids res ->
         d' !! models.id a = Some (JStr (models.title a)).
Proof.
  intros Hinit Hrun.
  destruct (build_digest_inv _ _ _ _ _ _ _ _ _ Hrun)
    as (st0 & log0 & sorted & Hi & Hc & Hs).
  rewrite Hinit in Hi. injection Hi as <- <-.
  pose proof (build_digest_forward lsa _ _ _ _ _ _ _ _ _ Hinit Hc Hs) as Hfw.
  rewrite Hfw in Hrun. injection Hrun as <- <-. cbn [state._data] in *.
  set (articles := fetchers.collect_articles sha256_hex dateutil_parse html_text
                     net config None) in *.
  set (shown := filter (reference.has_text net) sorted).
  apply sort_reverse_returns in Hs as (Hperm & _).
  assert (Hsorted : forall a, a ∈ sorted <-> (models.id a ∉ dom d) /\ a ∈ articles).
  { intros a. now rewrite Hperm, list_elem_of_filter. }
  assert (Hnd : NoDup (map models.id sorted)).
  { rewrite Hperm. eapply NoDup_map_sublist; [apply sublist_filter|].
    apply aggregated_NoDup. }
  eexists. split; [apply StateStore_json_loaded, lookup_insert_eq|].
  cbn [digest.new_article_ids]. split; [|split].
  - apply map_subseteq_spec. intros i v Hiv. rewrite marked_lookup.
    destruct (decide _) as [Hin | _]; [exfalso | exact Hiv].
    apply elem_of_map_id in Hin as (a & Ha & <-).
    apply list_elem_of_filter in Ha as [_ Ha]. apply Hsorted in Ha as [Ha _].
    apply Ha. apply elem_of_dom. eauto.
  - apply dom_marked.
  - intros a Ha Hin. rewrite marked_lookup. rewrite decide_True by exact Hin.
    assert (Has : a ∈ sorted).
    { apply elem_of_map_id in Hin as (b & Hb & Hid).
      apply list_elem_of_filter in Hb as [_ Hb].
      assert (b = a); [|now subst].
      apply Hsorted in Hb as [_ Hb].
      eapply (NoDup_map_eq models.id articles); eauto. apply aggregated_NoDup. }
    rewrite (matching_enriched _ _ _ Hnd Has).
    now destruct (enrich_keeps_id_title (page_answer net) a) as [_ ->].
Qed.

Lemma init_missing (fs : filesystem) (p : path) :
  fs !! p = None ->
  state.__init__ fs p = Ok ({| state.path_ := p; state._data := JObject ∅ |}, []).
Proof.
  intros H. unfold state.__init__, state._load, exists_.
  cbn [state.path_]. rewrite H.
  now rewrite bool_decide_eq_false_2 by (intros [? ?]; discriminate).
Qed.

Lemma history_grows_by_insertion_witness :
  exists res fs' d',
    digest.build_digest sample.lsa sample.sha256_hex sample.dateutil_parse
      sample.html_text sample.one_card_page_up ∅ sample.cfg = Ok (res, fs')
    /\ state.__init__ fs' (config.state_file sample.cfg)
       = Ok ({| state.path_ := config.state_file sample.cfg;
                state._data := JObject d' |}, [])
    /\ dom d' = dom (∅ : gmap string jvalue)
                ∪ list_to_set (digest.new_article_ids res).
Proof.
  pose proof sample_run_returns as Hret.
  destruct (digest.build_digest sample.lsa sample.sha256_hex
              sample.dateutil_parse sample.html_text sample.one_card_page_up ∅
              sample.cfg) as [[res fs']|exc] eqn:H; [|discriminate Hret].
  destruct (history_grows_by_insertion _ _ _ _ _ _ _ ∅ [] _ _
              (init_missing ∅ (config.state_file sample.cfg) (lookup_empty _)) H)
    as (d' & Hload & _ & Hdom & _).
  exists res, fs', d'. auto.
Defined.

(** ** digest.py *)

Lemma four_cards_run_returns :
  returns
    (digest.build_digest sample.lsa sample.sha256_hex sample.parse_naive
       sample.html_text sample.four_cards ∅ sample.cfg) = true.
Proof. vm_compute. reflexivity. Qed.

(** [build_digest] returns only if the state file could be loaded, the
    loaded document is an object unless nothing was aggregated, and the
    sort keys of the fresh articles are all naive or all aware: an
    unreadable state file, a state file that holds a list while a relevant
    article is fetched, and a fresh batch that mixes naive and aware dates
    each make the run raise. *)
Theorem build_digest_returns_only_if
    (lsa : string -> nat -> list string)
    (sha256_hex : string -> string)
    (dateutil_parse : string -> option datetime)
    (html_text : string -> string)
    (net : network) (fs : filesystem) (config : config.Config)
    (res : digest.DigestResult) (fs' : filesystem) :
  digest.build_digest lsa sha256_hex dateutil_parse html_text net fs config
  = Ok (res, fs') ->
  exists st0 log,
    state.__init__ fs (config.state_file config) = Ok (st0, log)
    /\ (fetchers.collect_articles sha256_hex dateutil_parse html_text net config
          None = []
        \/ exists d, state._data st0 = JObject d)
    /\ reference.uniform
         (filter (fun a => models.id a ∉ reference.ids_of (state._data st0))
            (fetchers.collect_articles sha256_hex dateutil_parse html_text net
               config None)).
Proof.
  intros H. destruct (build_digest_inv _ _ _ _ _ _ _ _ _ H)
    as (st0 & log & sorted & Hi & Hc & Hs).
  exists st0, log. split; [exact Hi|]. split; [exact Hc|].
  apply sort_reverse_uniform. eauto.
Qed.

Lemma build_digest_returns_only_if_witness :
  exists res fs',
    digest.build_digest sample.lsa sample.sha256_hex sample.parse_naive
      sample.html_text sample.four_cards ∅ sample.cfg = Ok (res, fs')
    /\ length (fetchers.collect_articles sample.sha256_hex sample.parse_naive
                 sample.html_text sample.four_cards sample.cfg None) = 4%nat
    /\ exists st0,
         reference.uniform
           (filter (fun a => models.id a ∉ reference.ids_of (state._data st0))
              (fetchers.collect_articles sample.sha256_hex sample.parse_naive
                 sample.html_text sample.four_cards sample.cfg None)).
Proof.
  pose proof four_cards_run_returns as Hret.
  destruct (digest.build_digest sample.lsa sample.sha256_hex
              sample.parse_naive sample.html_text sample.four_cards ∅
              sample.cfg) as [[res fs']|exc] eqn:H; [|discriminate Hret].
  exists res, fs'. split; [reflexivity|]. split; [reflexivity|].
  destruct (build_digest_returns_only_if _ _ _ _ _ _ _ _ _ H)
    as (st0 & log & _ & _ & Hu).
  exists st0. exact Hu.
Defined.

Lemma down_not_returns {B} (answer : http B) :
  shape.down answer -> returns (get_ok answer) = false.
Proof.
  destruct answer as [k | status body]; [reflexivity|].
  intros H. now rewrite (get_ok_error_status _ _ H).
Qed.

(** When the three sources are down, each request raising a
    [RequestException] or answered with an error status, and the disk has
    no state file, a run that returns has an empty digest and no new id,
    and the disk it leaves is the one before with a state file that holds
    an empty history. *)
Theorem build_digest_sources_down
    (lsa : string -> nat -> list string)
    (sha256_hex : string -> string)
    (dateutil_parse : string -> option datetime)
    (html_text : string -> string)
    (net : network) (fs : filesystem) (config : config.Config)
    (res : digest.DigestResult) (fs' : filesystem) :
  shape.down (newsapi_answer net config) ->
  shape.down (google_answer net) ->
  shape.down (pymnts_answer net) ->
  fs !! config.state_file config = None ->
  digest.build_digest lsa sha256_hex dateutil_parse html_text net fs config
  = Ok (res, fs') ->
  res = {| digest.digest :=
             {| digest.created_at := config.digest_date config;
                digest.items := [] |};
           digest.new_article_ids := [] |}
  /\ fs' = <[config.state_file config := Readable (Json (JObject ∅))]> fs.
Proof.
  intros H1 H2 H3 Hfile Hrun.
  pose proof (sources_down_nothing_aggregated sha256_hex dateutil_parse
                html_text net config (down_not_returns _ H1)
                (down_not_returns _ H2) (down_not_returns _ H3)) as Hnone.
  rewrite (build_digest_forward lsa _ _ _ net fs config _ [] []
             (init_missing _ _ Hfile)) in Hrun.
  - injection Hrun as <- <-. split; reflexivity.
  - now left.
  - now rewrite Hnone.
Qed.

Lemma build_digest_sources_down_witness :
  exists res fs',
    digest.build_digest sample.lsa sample.sha256_hex sample.dateutil_parse
      sample.html_text sample.all_down ∅ sample.cfg = Ok (res, fs')
    /\ digest.new_article_ids res = []
    /\ fs' = {[ config.state_file sample.cfg := Readable (Json (JObject ∅)) ]}.
Proof.
  assert (Hret : returns
    (digest.build_digest sample.lsa sample.sha256_hex sample.dateutil_parse
       sample.html_text sample.all_down ∅ sample.cfg) = true)
    by (vm_compute; reflexivity).
  destruct (digest.build_digest sample.lsa sample.sha256_hex
              sample.dateutil_parse sample.html_text sample.all_down ∅
              sample.cfg) as [[res fs']|exc] eqn:H; [|discriminate Hret].
  exists res, fs'. split; [reflexivity|].
  assert (H1 : shape.down (newsapi_answer sample.all_down sample.cfg))
    by (simpl; lia).
  assert (H2 : shape.down (google_answer sample.all_down)) by exact I.
  assert (H3 : shape.down (pymnts_answer sample.all_down)) by (simpl; lia).
  destruct (build_digest_sources_down _ _ _ _ sample.all_down ∅ sample.cfg
              res fs' H1 H2 H3 (lookup_empty _) H) as [-> ->].
  split; reflexivity.
Defined.

(** *** The order of a report *)

Lemma descending_filter (P : models.Article -> Prop)
    `{!forall a, Decision (P a)} (l : list models.Article) :
  reference.descending l -> reference.descending (filter P l).
Proof.
  unfold reference.descending. induction l as [|a l IH]; intros Hs; [constructor|].
  apply StronglySorted_inv in Hs as [Hl Ha].
  rewrite filter_cons. destruct (decide (P a)); [|now apply IH].
  constructor; [now apply IH|].
  rewrite Forall_forall in Ha. apply Forall_forall. intros b Hb.
  apply list_elem_of_filter in Hb as [_ Hb]. now apply Ha.
Qed.

Lemma filter_none {A} (P : A -> Prop) `{!forall a, Decision (P a)} (l : list A) :
  (forall x, x ∈ l -> ~ P x) -> filter P l = [].
Proof.
  induction l as [|x l IH]; intros Hall; [reflexivity|].
  rewrite filter_cons, decide_False by (apply Hall; now left).
  apply IH. intros y Hy. apply Hall. now right.
Qed.

Lemma insert_sorted_stable (t : N) (art : models.Article)
    (sorted r : list models.Article) :
  reference.descending sorted ->
  digest.insert_sorted art sorted = Ok r ->
  filter (shape.dated t) r = filter (shape.dated t) (sorted ++ [art]).
Proof.
  unfold reference.descending.
  revert r. induction sorted as [|other rest IH]; intros r Hs; simpl.
  - intros [= <-]. reflexivity.
  - destruct (datetime_lt _ _) as [smaller|] eqn:E; simpl; [|discriminate].
    apply datetime_lt_returns in E as [_ ->].
    apply StronglySorted_inv in Hs as [Hrest Hother].
    destruct (_ <? _)%N eqn:Hlt.
    + intros [= <-]. apply N.ltb_lt in Hlt.
      change (other :: rest ++ [art]) with ((other :: rest) ++ [art]).
      rewrite filter_app, !(filter_cons _ art), filter_nil.
      destruct (decide (shape.dated t art)) as [Hart | Hart];
        [|now rewrite app_nil_r].
      rewrite (filter_none (shape.dated t) (other :: rest)); [reflexivity|].
      unfold shape.dated in *. intros x Hx.
      apply elem_of_cons in Hx as [-> | Hx]; [lia|].
      rewrite Forall_forall in Hother. specialize (Hother x Hx). simpl in Hother.
      lia.
    + destruct (digest.insert_sorted art rest) as [rest'|] eqn:Hins; simpl;
        [|discriminate].
      intros [= <-]. rewrite !filter_cons, (IH rest' Hrest eq_refl).
      now destruct (decide (shape.dated t other)).
Qed.

Lemma sort_loop_stable (t : N) (l acc r : list models.Article) :
  reference.uniform acc -> reference.descending acc ->
  fetchers.for_each (fun sorted art => digest.insert_sorted art sorted) acc l = Ok r ->
  filter (shape.dated t) r = filter (shape.dated t) (acc ++ l).
Proof.
  revert acc. induction l as [|art l IH]; intros acc Hu Hd; simpl.
  - intros [= <-]. now rewrite app_nil_r.
  - destruct (digest.insert_sorted art acc) as [acc'|] eqn:Hins; simpl;
      [|discriminate].
    intros Hr.
    pose proof (insert_sorted_perm _ _ _ Hins) as Hp.
    pose proof (insert_sorted_uniform _ _ _ Hu Hins) as Hu'.
    rewrite (IH acc'); [| |eapply insert_sorted_descending; eauto|exact Hr].
    + rewrite !filter_app, (insert_sorted_stable t _ _ _ Hd Hins), filter_app.
      rewrite <- app_assoc. f_equal.
      change (art :: l) with ([art] ++ l). now rewrite filter_app.
    + eapply uniform_subset; [|exact Hu']. intros a Ha. now rewrite <- Hp.
Qed.

(** Articles of one date keep, in the sorted list, the order they had. *)
Lemma sort_reverse_stable (t : N) (l r : list models.Article) :
  digest.sort_reverse l = Ok r ->
  filter (shape.dated t) r = filter (shape.dated t) l.
Proof.
  intros H. apply (sort_loop_stable t) in H; [exact H | |constructor].
  intros a b Ha. inversion Ha.
Qed.

Lemma item_key_entry (lsa : string -> nat -> list string) (net : network)
    (a : models.Article) :
  shape.item_key (reference.entry lsa net a) = digest.sort_key a.
Proof. reflexivity. Qed.

Lemma filter_swap {A} (P Q : A -> Prop)
    `{!forall a, Decision (P a)} `{!forall a, Decision (Q a)} (l : list A) :
  filter P (filter Q l) = filter Q (filter P l).
Proof.
  induction l as [|x l IH]; [reflexivity|].
  rewrite !filter_cons.
  destruct (decide (Q x)) as [HQ | HQ]; destruct (decide (P x)) as [HP | HP];
    rewrite ?filter_cons, ?decide_True, ?decide_False by assumption;
    now rewrite IH.
Qed.

Lemma descending_entries (lsa : string -> nat -> list string) (net : network)
    (l : list models.Article) :
  reference.descending l ->
  StronglySorted
    (fun x y => (ticks (shape.item_key y) <= ticks (shape.item_key x))%N)
    (map (reference.entry lsa net) l).
Proof.
  unfold reference.descending.
  induction l as [|a l IH]; intros Hs; simpl; [constructor|].
  apply StronglySorted_inv in Hs as [Hl Ha].
  constructor; [now apply IH|].
  rewrite Forall_forall in Ha. apply Forall_forall. intros y Hy.
  apply list_elem_of_In, in_map_iff in Hy as (b & <- & Hb).
  rewrite !item_key_entry. apply Ha. now apply list_elem_of_In.
Qed.

(** The entries of a report are ordered by date, later first, an entry
    without a date counting as dated [datetime.min]; their dates are all
    naive or all aware; and the entries of one date are in the order in
    which their articles were aggregated. *)
Theorem report_is_ordered
    (lsa : string -> nat -> list string)
    (sha256_hex : string -> string)
    (dateutil_parse : string -> option datetime)
    (html_text : string -> string)
    (net : network) (fs : filesystem) (config : config.Config)
    (res : digest.DigestResult) (fs' : filesystem) :
  digest.build_digest lsa sha256_hex dateutil_parse html_text net fs config
  = Ok (res, fs') ->
  StronglySorted
    (fun x y => (ticks (shape.item_key y) <= ticks (shape.item_key x))%N)
    (digest.items (digest.digest res))
  /\ (forall x y,
        x ∈ digest.items (digest.digest res) ->
        y ∈ digest.items (digest.digest res) ->
        tz_aware (shape.item_key x) = tz_aware (shape.item_key y))
  /\ exists shown,
       digest.items (digest.digest res) = map (reference.entry lsa net) shown
       /\ forall t,
            filter (shape.dated t) shown
            = filter (shape.dated t)
                (filter (reference.has_text net)
                   (filter (fun a => models.id a ∉ reference.recorded fs config)
                      (fetchers.collect_articles sha256_hex dateutil_parse
                         html_text net config None))).
Proof.
  intros Hrun.
  destruct (build_digest_spec _ _ _ _ _ _ _ _ _ Hrun)
    as (sorted & j & Hsort & Hitems & _).
  pose proof (sort_reverse_returns _ _ Hsort) as (Hperm & Hunif & Hdesc).
  rewrite Hitems. split; [|split].
  - apply descending_entries. now apply descending_filter.
  - intros x y Hx Hy.
    apply list_elem_of_In, in_map_iff in Hx as (a & <- & Ha).
    apply list_elem_of_In, in_map_iff in Hy as (b & <- & Hb).
    rewrite !item_key_entry.
    apply list_elem_of_In, list_elem_of_filter in Ha as [_ Ha].
    apply list_elem_of_In, list_elem_of_filter in Hb as [_ Hb].
    rewrite Hperm in Ha, Hb. now apply Hunif.
  - exists (filter (reference.has_text net) sorted). split; [reflexivity|].
    intros t.
    rewrite !(filter_swap (shape.dated t) (reference.has_text net)).
    now rewrite (sort_reverse_stable t _ _ Hsort).
Qed.

Lemma report_is_ordered_witness :
  reference.new_ids_of
    (digest.build_digest sample.lsa sample.sha256_hex sample.parse_naive
       sample.html_text sample.four_cards ∅ sample.cfg)
  = Some ["pymnts::https://www.pymnts.com/A"; "pymnts::https://www.pymnts.com/D";
          "pymnts::https://www.pymnts.com/C"; "pymnts::https://www.pymnts.com/B"]
  /\ exists res fs',
       digest.build_digest sample.lsa sample.sha256_hex sample.parse_naive
         sample.html_text sample.four_cards ∅ sample.cfg = Ok (res, fs')
       /\ StronglySorted
            (fun x y => (ticks (shape.item_key y) <= ticks (shape.item_key x))%N)
            (digest.items (digest.digest res)).
Proof.
  split; [vm_compute; reflexivity|].
  pose proof four_cards_run_returns as Hret.
  destruct (digest.build_digest sample.lsa sample.sha256_hex
              sample.parse_naive sample.html_text sample.four_cards ∅
              sample.cfg) as [[res fs']|exc] eqn:H; [|discriminate Hret].
  exists res, fs'. split; [reflexivity|].
  exact (proj1 (report_is_ordered _ _ _ _ _ _ _ _ _ H)).
Defined.

(** *** What [run] and [main] leave on the disk *)

(** [run] touches at most two files, the state file and the report of the
    day.  When the digest has entries, the report file holds the rendered
    digest, which is also what is printed, once; when it has none, nothing
    is printed.  Unless the two paths coincide, the state file then holds a
    JSON document. *)
Theorem run_writes_state_and_report
    (lsa : string -> nat -> list string)
    (sha256_hex : string -> string)
    (dateutil_parse : string -> option datetime)
    (html_text : string -> string)
    (strftime : datetime -> string -> string)
    (env : config.environ) (net : network) (fs : filesystem)
    (config_ : option config.Config) (res : digest.DigestResult)
    (fs' : filesystem) (printed : list string) :
  digest.run lsa sha256_hex dateutil_parse html_text strftime env net fs config_
  = Ok (res, fs', printed) ->
  let cfg := default (config.load_config env) config_ in
  let report := config.digest_path strftime cfg in
  let rendered := digest.to_markdown strftime (digest.digest res) in
  (forall p, p <> config.state_file cfg -> p <> report -> fs' !! p = fs !! p)
  /\ (digest.items (digest.digest res) <> [] ->
      fs' !! report = Some (Readable (Plain rendered)) /\ printed = [rendered])
  /\ (digest.items (digest.digest res) = [] -> printed = [])
  /\ (report <> config.state_file cfg ->
      exists j, fs' !! config.state_file cfg = Some (Readable (Json j))).
Proof.
  intros Hrun cfg report rendered. unfold digest.run in Hrun.
  assert (Hcfg : match config_ with
                 | Some c => c
                 | None => config.load_config env
                 end = cfg) by (subst cfg; now destruct config_).
  rewrite Hcfg in Hrun.
  destruct (digest.build_digest _ _ _ _ _ _ cfg) as [[res0 fs0]|exc] eqn:Hb;
    cbn [rbind] in Hrun; [|discriminate].
  destruct (build_digest_spec _ _ _ _ _ _ _ _ _ Hb)
    as (sorted & j & _ & _ & _ & Hfs0 & _).
  destruct (digest.items (digest.digest res0)) as [|item rest] eqn:Hitems;
    injection Hrun as <- <- <-; rewrite Hitems.
  - split; [|split; [|split]].
    + intros p Hp _. rewrite Hfs0. now apply lookup_insert_ne.
    + intros Hne. now contradiction Hne.
    + reflexivity.
    + intros _. exists j. rewrite Hfs0. apply lookup_insert_eq.
  - unfold digest.write_digest, write_text.
    split; [|split; [|split]].
    + intros p Hp Hr. rewrite lookup_insert_ne by auto.
      rewrite Hfs0. now apply lookup_insert_ne.
    + intros _. split; [apply lookup_insert_eq | reflexivity].
    + discriminate.
    + intros Hne. exists j. rewrite lookup_insert_ne by exact Hne.
      rewrite Hfs0. apply lookup_insert_eq.
Qed.

Lemma run_writes_state_and_report_witness :
  exists res fs' printed,
    digest.run sample.lsa sample.sha256_hex sample.dateutil_parse
      sample.html_text sample.strftime sample.env sample.one_card_page_up ∅ None
    = Ok (res, fs', printed)
    /\ forall p,
         p <> config.state_file (config.load_config sample.env) ->
         p <> config.digest_path sample.strftime (config.load_config sample.env) ->
         fs' !! p = (∅ : filesystem) !! p.
Proof.
  assert (Hret : returns
    (digest.run sample.lsa sample.sha256_hex sample.dateutil_parse
       sample.html_text sample.strftime sample.env sample.one_card_page_up ∅ None)
    = true) by (vm_compute; reflexivity).
  destruct (digest.run sample.lsa sample.sha256_hex sample.dateutil_parse
              sample.html_text sample.strftime sample.env
              sample.one_card_page_up ∅ None)
    as [[[res fs'] printed]|exc] eqn:H; [|discriminate Hret].
  exists res, fs', printed. split; [reflexivity|].
  apply (run_writes_state_and_report _ _ _ _ _ _ _ _ _ _ _ _ H).
Defined.



(** A report has one entry for each new id, and no id is reported twice. *)
Theorem report_ids_distinct
    (lsa : string -> nat -> list string)
    (sha256_hex : string -> string)
    (dateutil_parse : string -> option datetime)
    (html_text : string -> string)
    (net : network) (fs : filesystem) (config : config.Config)
    (res : digest.DigestResult) (fs' : filesystem) :
  digest.build_digest lsa sha256_hex dateutil_parse html_text net fs config
  = Ok (res, fs') ->
  NoDup (digest.new_article_ids res)
  /\ length (digest.items (digest.digest res))
     = length (digest.new_article_ids res).
Proof.
  intros Hrun.
  destruct (build_digest_spec _ _ _ _ _ _ _ _ _ Hrun)
    as (sorted & j & Hsort & Hitems & Hids & _).
  apply sort_reverse_returns in Hsort as (Hperm & _).
  rewrite Hitems, Hids, !length_map. split; [|reflexivity].
  eapply NoDup_map_sublist; [apply sublist_filter|].
  rewrite Hperm.
  eapply NoDup_map_sublist; [apply sublist_filter|].
  apply aggregated_NoDup.
Qed.

Lemma report_ids_distinct_witness :
  option_map length
    (reference.new_ids_of
       (digest.build_digest sample.lsa sample.sha256_hex sample.parse_naive
          sample.html_text sample.four_cards ∅ sample.cfg)) = Some 4%nat
  /\ exists res fs',
       digest.build_digest sample.lsa sample.sha256_hex sample.parse_naive
         sample.html_text sample.four_cards ∅ sample.cfg = Ok (res, fs')
       /\ NoDup (digest.new_article_ids res)
       /\ length (digest.items (digest.digest res))
          = length (digest.new_article_ids res).
Proof.
  split; [vm_compute; reflexivity|].
  pose proof four_cards_run_returns as Hret.
  destruct (digest.build_digest sample.lsa sample.sha256_hex
              sample.parse_naive sample.html_text sample.four_cards ∅
              sample.cfg) as [[res fs']|exc] eqn:H; [|discriminate Hret].
  exists res, fs'. split; [reflexivity|].
  apply (report_ids_distinct _ _ _ _ _ _ _ _ _ H).
Defined.

(** *** Aggregating twice *)

Lemma first_seen_wins_from_fresh (earlier : gset string)
    (l : list models.Article) :
  NoDup (map models.id l) ->
  (forall a, a ∈ l -> models.id a ∉ earlier) ->
  reference.first_seen_wins_from earlier l = l.
Proof.
  revert earlier. induction l as [|a l IH]; intros earlier Hnd Hfresh; simpl;
    [reflexivity|].
  simpl in Hnd. apply NoDup_cons in Hnd as [Ha Hnd].
  rewrite bool_decide_eq_false_2 by (apply Hfresh; now left).
  f_equal. apply IH; [exact Hnd|].
  intros b Hb Hin. apply elem_of_union in Hin as [Hin | Hin].
  - revert Hin. apply Hfresh. now right.
  - apply elem_of_singleton in Hin. apply Ha. rewrite <- Hin.
    apply elem_of_map_id. eauto.
Qed.

Lemma filter_all {A} (P : A -> Prop) `{!forall a, Decision (P a)} (l : list A) :
  (forall x, x ∈ l -> P x) -> filter P l = l.
Proof.
  induction l as [|x l IH]; intros Hall; [reflexivity|].
  rewrite filter_cons, decide_True by (apply Hall; now left).
  f_equal. apply IH. intros y Hy. apply Hall. now right.
Qed.

(** Aggregation is idempotent: a fetcher that returns what was aggregated
    gives the same aggregate again. *)
Theorem collect_from_idempotent (config : config.Config)
    (fs : list fetchers.NewsFetcher) :
  fetchers.collect_from config
    [{| fetchers.name := "again";
        fetchers.fetch := fun _ => Ok (fetchers.collect_from config fs) |}]
  = fetchers.collect_from config fs.
Proof.
  rewrite (collect_from_first_seen_wins config [_]).
  unfold reference.fetched. simpl. rewrite app_nil_r.
  unfold reference.relevant, reference.first_seen_wins.
  rewrite filter_all by (intros a Ha; now apply collect_from_relevant in Ha).
  apply first_seen_wins_from_fresh.
  - rewrite collect_from_first_seen_wins. apply first_seen_wins_from_NoDup.
  - intros a _. set_solver.
Qed.

(** ** content.py *)

Lemma page_text_none (texts : list string) :
  content.page_text texts = None <-> Forall (fun t => t = "") texts.
Proof.
  unfold content.page_text. split.
  - intros H. apply Forall_forall. intros t Ht.
    destruct t as [|c t]; [reflexivity | exfalso].
    assert (Hin : String c t ∈ filter (fun t => Is_true (Str.truthy t)) texts)
      by (apply list_elem_of_filter; split; [exact I | exact Ht]).
    destruct (filter _ texts); [inversion Hin | discriminate].
  - intros H. rewrite filter_none; [reflexivity|].
    rewrite Forall_forall in H. intros t Ht. rewrite (H t Ht). intros [].
Qed.

(** When the content is empty and the request for the page raises a
    [requests.RequestException], or is answered with an error status, or
    is answered with a page that parses and has no paragraph with text,
    the article object stays as it is, the request is on record, and [best_text] falls
    back to the summary hint. *)
Theorem enrich_article_content_falls_back (web : string -> http (list string))
    (ref : nat) (m : content.memory) (article : models.Article) :
  content.heap m !! ref = Some article ->
  truthy_opt (models.content article) = false ->
  (exists k, web (models.url article) = Failed k)
  \/ (exists status texts,
        web (models.url article) = Response status texts
        /\ ((400 <= status < 600)%Z \/ Forall (fun t => t = "") texts)) ->
  let m' := {| content.heap := content.heap m;
               content.requested :=
                 content.requested m ++ [models.url article] |} in
  content.enrich_article_content_obj web ref m = Some (ref, m')
  /\ content.best_text_obj web ref m = Some (models.summary article, m')
  /\ content.enrich_article_content web article = article
  /\ content.best_text web article = (models.summary article, article).
Proof.
  intros Hheap Hempty Hfail m'.
  assert (Hpage : match get_ok (web (models.url article)) with
                  | Raise _ => True
                  | Ok texts => content.page_text texts = None
                  end).
  { destruct Hfail as [[k ->] | (status & texts & -> & [Hstatus | Hnone])].
    - exact I.
    - now rewrite (get_ok_error_status _ _ Hstatus).
    - simpl. destruct ((400 <=? status) && (status <? 600))%Z; [exact I|].
      now apply page_text_none. }
  assert (Hvalue : content.enrich_article_content web article = article).
  { unfold content.enrich_article_content. rewrite Hempty.
    destruct (get_ok (web (models.url article))); [|reflexivity].
    now rewrite Hpage. }
  assert (Hcall : content.enrich_article_content_obj web ref m = Some (ref, m')).
  { unfold content.enrich_article_content_obj. rewrite Hheap. simpl.
    rewrite Hempty.
    destruct (get_ok (web (models.url article))); [|reflexivity].
    now rewrite Hpage. }
  split; [exact Hcall|]. split; [|split; [exact Hvalue|]].
  - unfold content.best_text_obj. rewrite Hcall. simpl. rewrite Hheap. simpl.
    unfold models.primary_text. now rewrite Hempty.
  - unfold content.best_text. rewrite Hvalue.
    unfold models.primary_text. now rewrite Hempty.
Qed.

Lemma enrich_article_content_falls_back_witness :
  content.heap sample.memory0 !! 0%nat = Some sample.article_B
  /\ content.enrich_article_content_obj (fun _ => Response 404 ["Not found"]) 0
       sample.memory0
     = Some (0%nat,
             {| content.heap := content.heap sample.memory0;
                content.requested := ["https://example.com/B"] |})
  /\ content.enrich_article_content_obj (fun _ => Response 200 [""; ""]) 0
       sample.memory0
     = Some (0%nat,
             {| content.heap := content.heap sample.memory0;
                content.requested := ["https://example.com/B"] |}).
Proof.
  split; [reflexivity|]. split.
  - refine (proj1 (enrich_article_content_falls_back
                     (fun _ => Response 404 ["Not found"]) 0
                     sample.memory0 sample.article_B eq_refl eq_refl _)).
    right. exists 404%Z, ["Not found"]. split; [reflexivity|]. left. lia.
  - refine (proj1 (enrich_article_content_falls_back
                     (fun _ => Response 200 [""; ""]) 0
                     sample.memory0 sample.article_B eq_refl eq_refl _)).
    right. exists 200%Z, [""; ""]. split; [reflexivity|]. right.
    repeat constructor.
Defined.

(** ** The rendered report *)

Lemma rstrip_keeps_head (c : ascii) (s : string) :
  Str.is_space c = false -> exists r, Str.rstrip (String c s) = String c r.
Proof.
  intros Hc. simpl. destruct (Str.rstrip s); [rewrite Hc|]; eauto.
Qed.

(** A rendered digest starts with the mark of its heading, ends with a
    newline, and has no whitespace before that newline: the text of a
    report is never empty, also for a digest without entries. *)
Theorem to_markdown_shape (strftime : datetime -> string -> string)
    (d : digest.Digest) :
  exists body,
    digest.to_markdown strftime d = String "#" body +:+ content.newline
    /\ Str.strip (String "#" body) = String "#" body.
Proof.
  unfold digest.to_markdown.
  set (lines := flat_map _ (digest.items d)).
  set (heading := "# PayPal Daily Digest — " +:+ strftime (digest.created_at d) "%Y-%m-%d").
  assert (Hjoin : exists rest,
            Str.join content.newline ([heading; ""] ++ lines) = String "#" rest).
  { subst heading. simpl. eexists. reflexivity. }
  destruct Hjoin as [rest Hjoin]. rewrite Hjoin.
  assert (Hstrip : exists body, Str.strip (String "#" rest) = String "#" body).
  { unfold Str.strip. change (Str.lstrip (String "#" rest)) with (String "#" rest).
    now apply rstrip_keeps_head. }
  destruct Hstrip as [body Hbody]. exists body. split; [now rewrite Hbody|].
  rewrite <- Hbody. apply strip_idempotent.
Qed.
